(** * Verification of the llm-db-optimization pipeline (llm-service)

    Shallow embedding of the parts of [src/llm-service/src] that the
    pipeline orchestration and the task registry rely on:
    - the output sanitizer of the stage agents
      ([DeveloperAgent._split_clean], [DDLAgent._split_clean],
       [MigrationAgent._split_clean], [_strip_markdown_and_clean]);
    - the sort stage [GoogleOptimizerAgent.sort_queries_by_total_time];
    - the fan-out stage [GoogleOptimizerAgent.optimize_queries] and the
      per-query fallback of [QueryOptimizerAgent._process_single_query];
    - the task registry [services/task_manager.py: TaskManager]. *)

From Stdlib Require Import Ascii String ZArith Lia Permutation Sorted.
From stdpp Require Import base list gmap strings.

(* ================================================================= *)
(** * Output sanitizer *)
(* ================================================================= *)

Module Sanitizer.

(** Characters are code points below 256 ([ascii] read as Latin-1). *)

Definition nl : ascii := "010"%char.
Definition tick : ascii := "`"%char.

Definition is_nl (c : ascii) : bool := Ascii.eqb c nl.
Definition is_tick (c : ascii) : bool := Ascii.eqb c tick.

(** Python's [str.isspace] on code points below 256. *)
Definition is_space (c : ascii) : bool :=
  let n := nat_of_ascii c in
  ((9 <=? n) && (n <=? 13)) || ((28 <=? n) && (n <=? 32))
  || (n =? 133) || (n =? 160).

(** Python's [\w] on [str] (alphanumeric or underscore), code points below 256. *)
Definition is_word (c : ascii) : bool :=
  let n := nat_of_ascii c in
  ((48 <=? n) && (n <=? 57)) || ((65 <=? n) && (n <=? 90))
  || (n =? 95) || ((97 <=? n) && (n <=? 122))
  || (n =? 170) || (n =? 178) || (n =? 179) || (n =? 181) || (n =? 185)
  || (n =? 186) || ((188 <=? n) && (n <=? 190))
  || ((192 <=? n) && (n <=? 214)) || ((216 <=? n) && (n <=? 246))
  || ((248 <=? n) && (n <=? 255)).

(** [re.sub(r"^```[\w]*\n", "", text, flags=re.MULTILINE)]: scanning left
    to right, at each line start ([bol]) a run of three backticks, word
    characters and a newline is deleted; otherwise the character is copied. *)
Fixpoint sub_open (bol : bool) (s : string) : string :=
  match s with
  | EmptyString => EmptyString
  | String c t =>
      if bol && is_tick c then
        match t with
        | String c2 (String c3 r) =>
            if is_tick c2 && is_tick c3 then
              (fix tag (u : string) : string :=
                 match u with
                 | EmptyString => String c (sub_open false t)
                 | String d v =>
                     if is_nl d then sub_open true v
                     else if is_word d then tag v
                     else String c (sub_open false t)
                 end) r
            else String c (sub_open false t)
        | _ => String c (sub_open false t)
        end
      else String c (sub_open (is_nl c) t)
  end.

(** The inner loop of [sub_open] after three backticks at a line start,
    with the copy [fb] to produce when the match fails. *)
Definition tag_scan (fb : string) : string -> string :=
  fix tag (u : string) : string :=
    match u with
    | EmptyString => fb
    | String d v =>
        if is_nl d then sub_open true v
        else if is_word d then tag v
        else fb
    end.

(** End of a line for [$] under [re.MULTILINE]: end of text or a newline. *)
Definition at_line_end (s : string) : bool :=
  match s with
  | EmptyString => true
  | String c _ => is_nl c
  end.

(** [re.sub(r"\n```$", "", text, flags=re.MULTILINE)]. *)
Fixpoint sub_close (s : string) : string :=
  match s with
  | EmptyString => EmptyString
  | String c t =>
      match t with
      | String c1 (String c2 (String c3 r)) =>
          if is_nl c && is_tick c1 && is_tick c2 && is_tick c3 && at_line_end r
          then sub_close r
          else String c (sub_close t)
      | _ => String c (sub_close t)
      end
  end.

(** [text.replace("```", "")]: non-overlapping occurrences, left to right. *)
Fixpoint remove_ticks (s : string) : string :=
  match s with
  | EmptyString => EmptyString
  | String c t =>
      match t with
      | String c2 (String c3 r) =>
          if is_tick c && is_tick c2 && is_tick c3 then remove_ticks r
          else String c (remove_ticks t)
      | _ => String c (remove_ticks t)
      end
  end.

(** [str.lstrip()], [str.rstrip()] and [str.strip()]. *)
Fixpoint lstrip (s : string) : string :=
  match s with
  | EmptyString => EmptyString
  | String c t => if is_space c then lstrip t else s
  end.

Fixpoint rstrip (s : string) : string :=
  match s with
  | EmptyString => EmptyString
  | String c t =>
      match rstrip t with
      | EmptyString => if is_space c then EmptyString else String c EmptyString
      | t' => String c t'
      end
  end.

Definition strip (s : string) : string := rstrip (lstrip s).

(** [str.split("\n")]. *)
Fixpoint split_nl (s : string) : list string :=
  match s with
  | EmptyString => [EmptyString]
  | String c t =>
      if is_nl c then EmptyString :: split_nl t
      else match split_nl t with
           | [] => [String c EmptyString]
           | h :: rest => String c h :: rest
           end
  end.

Definition is_empty (s : string) : bool :=
  match s with EmptyString => true | _ => false end.

(** [_strip_markdown_and_clean] (identical in [DDLAgent], [DeveloperAgent],
    [MigrationAgent] and the [QueryOptimizerAgent] of [google_agent]). *)
Definition strip_markdown_and_clean (text : string) : string :=
  strip (remove_ticks (sub_close (sub_open true text))).

(** [_split_clean]:
    [[line.strip() for line in cleaned.split("\n") if line.strip()]]. *)
Definition split_clean (text : string) : list string :=
  map strip (List.filter (fun line => negb (is_empty (strip line)))
                    (split_nl (strip_markdown_and_clean text))).

(** Whether some character of [s] satisfies [p]. *)
Fixpoint has_char (p : ascii -> bool) (s : string) : bool :=
  match s with
  | EmptyString => false
  | String c t => p c || has_char p t
  end.

Fixpoint last_char (s : string) : option ascii :=
  match s with
  | EmptyString => None
  | String c EmptyString => Some c
  | String _ t => last_char t
  end.

(** A line of generated text: no newline, ends with a semicolon. *)
Definition semicolon_line (l : string) : Prop :=
  has_char is_nl l = false /\ last_char l = Some ";"%char.

(** A fence tag of word characters only, as in [```sql]. *)
Definition word_tag (tag : string) : Prop :=
  has_char (fun c => negb (is_word c)) tag = false.

(** Whether [s] contains three consecutive backticks. *)
Fixpoint has_fence (s : string) : bool :=
  match s with
  | EmptyString => false
  | String a t =>
      match t with
      | String b (String c _) => is_tick a && is_tick b && is_tick c
      | _ => false
      end || has_fence t
  end.

(** A line as [_split_clean] returns it: non-empty, without newline, trimmed. *)
Definition good_line (l : string) : Prop :=
  is_empty l = false /\ has_char is_nl l = false /\ strip l = l.

(** ["\n".join(lines)]. *)
Fixpoint join_nl (lines : list string) : string :=
  match lines with
  | [] => EmptyString
  | [x] => x
  | x :: rest => x +:+ String nl (join_nl rest)
  end.

End Sanitizer.

(* ================================================================= *)
(** * Workload items and the sort stage *)
(* ================================================================= *)

Module Workload.

(** The Python values a metric of a query dict can hold
    ([dict[str, str | int]], or [None] from JSON [null]). *)
Inductive pyval : Type :=
  | VInt (z : Z)
  | VStr (s : string)
  | VNone.

(** A query dict, as built by [DatabaseMetadata.to_agent_input]: [queryid], [query], [runquantity], [executiontime];
    a metric is [None] when its key is absent from the dict. *)
Record QueryDetails : Type := mkQuery {
  queryid : string;
  query : string;
  runquantity : option pyval;
  executiontime : option pyval
}.

(** [q.get(key, 0)]. *)
Definition get_or_zero (v : option pyval) : pyval :=
  match v with Some x => x | None => VInt 0 end.

Fixpoint str_repeat (s : string) (n : nat) : string :=
  match n with O => EmptyString | S k => s +:+ str_repeat s k end.

(** Python's [*] on two values; [None] is a [TypeError]
    ([str * int] repeats the string, an empty string when [int <= 0]). *)
Definition py_mul (a b : pyval) : option pyval :=
  match a, b with
  | VInt x, VInt y => Some (VInt (x * y))
  | VStr s, VInt n | VInt n, VStr s => Some (VStr (str_repeat s (Z.to_nat n)))
  | _, _ => None
  end.

(** Python's string [<]: lexicographic on code points. *)
Fixpoint str_lt (s t : string) : bool :=
  match s, t with
  | EmptyString, EmptyString => false
  | EmptyString, String _ _ => true
  | String _ _, EmptyString => false
  | String a s', String b t' =>
      if Ascii.eqb a b then str_lt s' t'
      else (nat_of_ascii a <? nat_of_ascii b)%nat
  end.

(** Python's [<] on two keys; [None] is a [TypeError]. *)
Definition py_lt (a b : pyval) : option bool :=
  match a, b with
  | VInt x, VInt y => Some (x <? y)%Z
  | VStr s, VStr t => Some (str_lt s t)
  | _, _ => None
  end.

(** The key of the sort stage:
    [q.get("runquantity", 0) * q.get("executiontime", 0)]. *)
Definition sort_key (q : QueryDetails) : option pyval :=
  py_mul (get_or_zero (runquantity q)) (get_or_zero (executiontime q)).

Fixpoint map_option {A B : Type} (f : A -> option B) (l : list A)
  : option (list B) :=
  match l with
  | [] => Some []
  | x :: l' =>
      match f x with
      | None => None
      | Some y =>
          match map_option f l' with
          | None => None
          | Some ys => Some (y :: ys)
          end
      end
  end.

(** Stable descending insertion of a decorated item, comparing keys with
    [<] only, as [list.sort] does: [x] goes before the first [y] with
    [not (key x < key y)], hence after the items of larger key and before
    the later items of equal key. *)
Fixpoint insert_desc {A : Type} (x : pyval * A) (l : list (pyval * A))
  : option (list (pyval * A)) :=
  match l with
  | [] => Some [x]
  | y :: l' =>
      match py_lt (fst x) (fst y) with
      | None => None
      | Some true =>
          match insert_desc x l' with
          | None => None
          | Some l'' => Some (y :: l'')
          end
      | Some false => Some (x :: y :: l')
      end
  end.

Fixpoint sort_desc {A : Type} (l : list (pyval * A)) : option (list (pyval * A)) :=
  match l with
  | [] => Some []
  | x :: l' =>
      match sort_desc l' with
      | None => None
      | Some s => insert_desc x s
      end
  end.

(** [sorted(state["queries"], key=sort_key, reverse=True)]: the keys of all items
    are computed first, then the decorated list is sorted stably in
    descending key order ([reverse=True] keeps equal keys in their
    original order).  [None] is a [TypeError] raised by the key or by a
    comparison.  For keys that are all integers the stable descending
    order is unique, so it does not depend on which comparisons the sort
    makes; with mixed key types CPython's merge sort may compare other
    pairs than this insertion sort does. *)
Definition sorted_queries (queries : list QueryDetails) : option (list QueryDetails) :=
  match map_option sort_key queries with
  | None => None
  | Some keys =>
      match sort_desc (zip keys queries) with
      | None => None
      | Some s => Some (map snd s)
      end
  end.

(** The impact of an item whose metrics are integers or absent. *)
Definition metric_z (v : option pyval) : Z :=
  match v with Some (VInt z) => z | _ => 0 end.

Definition impact (q : QueryDetails) : Z :=
  metric_z (runquantity q) * metric_z (executiontime q).

(** A metric that is an integer or absent from the dict. *)
Definition numeric_or_absent (v : option pyval) : Prop :=
  v = None \/ exists z, v = Some (VInt z).

Definition well_typed (q : QueryDetails) : Prop :=
  numeric_or_absent (runquantity q) /\ numeric_or_absent (executiontime q).

(** The same stable descending insertion sort on integer keys, which
    cannot fail; [sorted_queries] computes it on well-typed workloads. *)
Fixpoint insert_by {A : Type} (key : A -> Z) (x : A) (l : list A) : list A :=
  match l with
  | [] => [x]
  | y :: l' => if (key x <? key y)%Z then y :: insert_by key x l' else x :: y :: l'
  end.

Fixpoint sort_by {A : Type} (key : A -> Z) (l : list A) : list A :=
  match l with
  | [] => []
  | x :: l' => insert_by key x (sort_by key l')
  end.

End Workload.

(* ================================================================= *)
(** * Pipeline orchestration *)
(* ================================================================= *)

Module Pipeline.
Import Workload.

(** The pipeline state ([State] TypedDict of [optimizer_agent_new.py]). *)
Record State : Type := mkState {
  metadata : gmap string string;
  ddl_statements : list string;
  queries : list QueryDetails;
  optimization_plan : string;
  out_ddl_statements : list string;
  out_migrations : list string;
  out_queries : list (string * string)   (* [{"queryid": .., "query": ..}] *)
}.

(** [state[field] = value] for the fields the stages write. *)
Definition set_queries (st : State) (v : list QueryDetails) : State :=
  mkState (metadata st) (ddl_statements st) v (optimization_plan st)
          (out_ddl_statements st) (out_migrations st) (out_queries st).
Definition set_optimization_plan (st : State) (v : string) : State :=
  mkState (metadata st) (ddl_statements st) (queries st) v
          (out_ddl_statements st) (out_migrations st) (out_queries st).
Definition set_out_ddl_statements (st : State) (v : list string) : State :=
  mkState (metadata st) (ddl_statements st) (queries st) (optimization_plan st)
          v (out_migrations st) (out_queries st).
Definition set_out_migrations (st : State) (v : list string) : State :=
  mkState (metadata st) (ddl_statements st) (queries st) (optimization_plan st)
          (out_ddl_statements st) v (out_queries st).
Definition set_out_queries (st : State) (v : list (string * string)) : State :=
  mkState (metadata st) (ddl_statements st) (queries st) (optimization_plan st)
          (out_ddl_statements st) (out_migrations st) v.

(** The terminal result of [form_final_output]. *)
Record Output : Type := mkOutput {
  res_ddl_statements : list string;
  res_migrations : list string;
  res_queries : list (string * string)
}.

(** Node [sort_queries_by_total_time]; [None] is the [TypeError] of [sorted]. *)
Definition sort_queries_by_total_time (st : State) : option State :=
  qs ← sorted_queries (queries st);
  Some (set_queries st qs).

Section GooglePipeline.

(** The stage agents: each call sends one prompt to the text-generation
    service; [None] is an exception raised by the call.
    [analyst_analyze] is [AnalystAgent.analyze], [developer_develop_ddl] is
    [DeveloperAgent.develop_ddl], [migration_generate] is
    [MigrationAgent.generate_migrations], [optimize_query] is
    [QueryOptimizerAgent.optimize_query]. *)
Variable analyst_analyze : list string -> list QueryDetails -> option string.
Variable developer_develop_ddl : string -> list string -> option (list string).
Variable migration_generate :
  string -> list string -> list string -> option (list string).
Variable optimize_query : string -> list string -> option string.

Definition analyze_schema (st : State) : option State :=
  plan ← analyst_analyze (ddl_statements st) (queries st);
  Some (set_optimization_plan st plan).

Definition develop_ddl (st : State) : option State :=
  ddl ← developer_develop_ddl (optimization_plan st) (ddl_statements st);
  Some (set_out_ddl_statements st ddl).

Definition generate_migrations (st : State) : option State :=
  migs ← migration_generate (optimization_plan st) (ddl_statements st)
                            (out_ddl_statements st);
  Some (set_out_migrations st migs).

(** [_process_query] of [optimize_queries]: no exception handler. *)
Definition process_query (st : State) (q : QueryDetails) : option (string * string) :=
  optimized ← optimize_query (query q) (out_migrations st);
  Some (queryid q, optimized).

(** Node [optimize_queries]: [asyncio.gather] of one [_process_query] per
    item, in the order of [state["queries"]]; the results come back in that
    order whatever the completion order, and the first exception raised by
    any of them is raised by the gather. *)
Definition optimize_queries (st : State) : option State :=
  outs ← map_option (process_query st) (queries st);
  Some (set_out_queries st outs).

Definition form_final_output (st : State) : Output :=
  mkOutput (out_ddl_statements st) (out_migrations st) (out_queries st).

(** The compiled graph: START -> sort -> analyze -> develop_ddl ->
    generate_migrations -> optimize_queries -> form_final_output -> END. *)
Definition run (st : State) : option Output :=
  st1 ← sort_queries_by_total_time st;
  st2 ← analyze_schema st1;
  st3 ← develop_ddl st2;
  st4 ← generate_migrations st3;
  st5 ← optimize_queries st4;
  Some (form_final_output st5).

End GooglePipeline.

Section QueryOptimizerVariant.

(** [query_optimizer/optimizer_agent.py]: [llm_invoke] is [_invoke_llm]
    ([None]: the call raises), [optimize_prompt] is
    [prompts.OPTIMIZE_QUERY.format(query=..)], [clean_llm_output] is the
    pure [_clean_llm_output], [parse_and_optimize_sql] is
    [_parse_and_optimize_sql] (sqlglot; [None]: it raises). *)
Variable llm_invoke : string -> option string.
Variable optimize_prompt : string -> string.
Variable clean_llm_output : string -> string.
Variable parse_and_optimize_sql : string -> option string.

(** The body of the [try] block of [_process_single_query]. *)
Definition rewrite_attempt (original_query : string) : option string :=
  llm_response ← llm_invoke (optimize_prompt original_query);
  pretty_optimized ← parse_and_optimize_sql (clean_llm_output llm_response);
  parse_and_optimize_sql pretty_optimized.

(** [_process_single_query]: on any exception the original query is
    returned under the same id. *)
Definition process_single_query (q : QueryDetails) : string * string :=
  match rewrite_attempt (query q) with
  | Some final_optimized => (queryid q, final_optimized)
  | None => (queryid q, query q)
  end.

(** [_optimize_queries_node]: [asyncio.gather] of the per-item tasks, none
    of which raises. *)
Definition optimize_queries_node (st : State) : State :=
  set_out_queries st (map process_single_query (queries st)).

End QueryOptimizerVariant.

End Pipeline.

(* ================================================================= *)
(** * Request schema and agent entry ([api/schemas/request.py]) *)
(* ================================================================= *)

Module Request.

(** [DDLStatement] of the request. *)
Record DDLStatement : Type := mkDDLStatement { statement : string }.

(** [QueryDetails] of the request: the two metrics are [int] fields. *)
Record QueryDetails : Type := mkQueryDetails {
  queryid : string;
  query : string;
  runquantity : Z;
  executiontime : Z
}.

(** [DatabaseMetadata]. *)
Record DatabaseMetadata : Type := mkDatabaseMetadata {
  url : string;
  ddl : list DDLStatement;
  queries : list QueryDetails
}.

(** The [Field(..., ge=0)] constraints pydantic checks on the metrics. *)
Definition valid_query (q : QueryDetails) : Prop :=
  (0 <= runquantity q)%Z /\ (0 <= executiontime q)%Z.

Definition valid_metadata (m : DatabaseMetadata) : Prop :=
  Forall valid_query (queries m).

(** The dict [to_agent_input] returns: keys [metadata], [ddl_statements]
    and [queries]. *)
Record AgentInput : Type := mkAgentInput {
  in_metadata : gmap string string;
  in_ddl_statements : list string;
  in_queries : list Workload.QueryDetails
}.

(** One element of the [queries] list comprehension of [to_agent_input]. *)
Definition query_dict (q : QueryDetails) : Workload.QueryDetails :=
  Workload.mkQuery (queryid q) (query q)
    (Some (Workload.VInt (runquantity q))) (Some (Workload.VInt (executiontime q))).

(** [DatabaseMetadata.to_agent_input]. *)
Definition to_agent_input (m : DatabaseMetadata) : AgentInput :=
  mkAgentInput {[ "url" := url m ]}
               (map statement (ddl m))
               (map query_dict (queries m)).

(** [initial_state] of [GoogleOptimizerAgent.run]. *)
Definition initial_state (data : AgentInput) : Pipeline.State :=
  Pipeline.mkState (in_metadata data) (in_ddl_statements data) (in_queries data)
                   EmptyString [] [] [].

(** [enumerate(queries[:10])] of [AnalystAgent.analyze]: the (index, item)
    pairs the query block of the analyst prompt is formatted from (entry
    [i] is shown as [Query #{i+1}]). *)
Definition analyst_entries {A : Type} (queries : list A) : list (nat * A) :=
  zip (seq 0 (length (take 10 queries))) (take 10 queries).

End Request.

(* ================================================================= *)
(** * [QueryOptimizerAgent._clean_llm_output]
      ([agents/query_optimizer/optimizer_agent.py]) *)
(* ================================================================= *)

Module LlmOutputCleaner.
Import Sanitizer.

(** [[\r\n\t]]. *)
Definition is_ctrl_ws (c : ascii) : bool :=
  Ascii.eqb c "013"%char || Ascii.eqb c "010"%char || Ascii.eqb c "009"%char.

(** [re.sub(r"```(?:\w+)?", "", text)]: a run of three backticks is deleted
    together with the longest run of word characters after it; [skip] holds
    while that run is being deleted. *)
Fixpoint sub_fence_tags (skip : bool) (s : string) : string :=
  match s with
  | EmptyString => EmptyString
  | String a t =>
      if skip && is_word a then sub_fence_tags true t
      else match t with
           | String b (String c r) =>
               if is_tick a && is_tick b && is_tick c then sub_fence_tags true r
               else String a (sub_fence_tags false t)
           | _ => String a (sub_fence_tags false t)
           end
  end.

(** [re.sub(r"--[^\n]*", "", text)]: from [--] up to (not including) the
    next newline; [in_comment] holds while that text is being deleted. *)
Fixpoint sub_line_comments (in_comment : bool) (s : string) : string :=
  match s with
  | EmptyString => EmptyString
  | String a t =>
      if in_comment && negb (is_nl a) then sub_line_comments true t
      else match t with
           | String b r =>
               if Ascii.eqb a "-" && Ascii.eqb b "-" then sub_line_comments true r
               else String a (sub_line_comments false t)
           | EmptyString => String a (sub_line_comments false t)
           end
  end.

(** [re.sub(r"/\*.*?\*/", "", text, flags=re.DOTALL)]: at [/*] the
    shortest text up to the first [*/] after it is deleted; when no [*/]
    follows, nothing matches there and the [/] is copied. *)
Fixpoint sub_block_comments (s : string) : string :=
  match s with
  | EmptyString => EmptyString
  | String a t =>
      if Ascii.eqb a "/" then
        match t with
        | String b r =>
            if Ascii.eqb b "*" then
              (fix close (u : string) : string :=
                 match u with
                 | EmptyString => String a (sub_block_comments t)
                 | String d v =>
                     if Ascii.eqb d "*" then
                       match v with
                       | String e w =>
                           if Ascii.eqb e "/" then sub_block_comments w else close v
                       | EmptyString => String a (sub_block_comments t)
                       end
                     else close v
                 end) r
            else String a (sub_block_comments t)
        | EmptyString => String a (sub_block_comments t)
        end
      else String a (sub_block_comments t)
  end.

(** [re.sub(r"[\r\n\t]+", " ", text)]; [in_run] holds inside a run. *)
Fixpoint sub_ctrl_runs (in_run : bool) (s : string) : string :=
  match s with
  | EmptyString => EmptyString
  | String c t =>
      if is_ctrl_ws c then
        if in_run then sub_ctrl_runs true t else String " " (sub_ctrl_runs true t)
      else String c (sub_ctrl_runs false t)
  end.

(** [re.sub(r"\s+", " ", text)] ([\s] on [str] is [str.isspace]). *)
Fixpoint sub_space_runs (in_run : bool) (s : string) : string :=
  match s with
  | EmptyString => EmptyString
  | String c t =>
      if is_space c then
        if in_run then sub_space_runs true t else String " " (sub_space_runs true t)
      else String c (sub_space_runs false t)
  end.

(** [if text and not text.endswith(";"): text += ";"]. *)
Definition ensure_semicolon (text : string) : string :=
  if is_empty text then text
  else match last_char text with
       | Some c => if Ascii.eqb c ";" then text else text +:+ ";"
       | None => text +:+ ";"
       end.

(** A whitespace character other than a plain space. *)
Definition other_space (c : ascii) : bool := is_space c && negb (Ascii.eqb c " ").

(** [s] is empty or starts with a non-whitespace character. *)
Definition starts_nonspace (s : string) : Prop :=
  match s with EmptyString => True | String c _ => is_space c = false end.

(** Whether two whitespace characters are adjacent in [s]. *)
Fixpoint space_pair (s : string) : bool :=
  match s with
  | EmptyString => false
  | String a t =>
      match t with
      | String b _ => is_space a && is_space b
      | EmptyString => false
      end || space_pair t
  end.

(** [_clean_llm_output]. *)
Definition clean_llm_output (text : string) : string :=
  ensure_semicolon
    (strip (sub_space_runs false
      (sub_ctrl_runs false
        (sub_block_comments
          (sub_line_comments false
            (sub_fence_tags false text)))))).

End LlmOutputCleaner.

(* ================================================================= *)
(** * Task registry ([services/task_manager.py]) *)
(* ================================================================= *)

Module TaskRegistry.

Inductive TaskState : Type := RUNNING | FAILED | DONE.

#[global] Instance TaskState_eq_dec : EqDecision TaskState.
Proof. solve_decision. Defined.

(** [OptimizationResponse]: DDL, migrations and rewritten queries. *)
Record OptimizationResponse : Type := mkResponse {
  ddl : list string;
  migrations : list string;
  optimized_queries : list (string * string)
}.

#[global] Instance OptimizationResponse_eq_dec : EqDecision OptimizationResponse.
Proof. solve_decision. Defined.

(** [TaskManager]: the two dicts [_tasks] and [_tasks_results]. *)
Record TaskManager : Type := mkTaskManager {
  tasks : gmap string TaskState;
  tasks_results : gmap string OptimizationResponse
}.

(** [TaskManager()]. *)
Definition init : TaskManager := mkTaskManager ∅ ∅.

(** [create_task]: [new_id] is the [str(uuid.uuid4())] drawn by the call. *)
Definition create_task (new_id : string) (tm : TaskManager) : string * TaskManager :=
  (new_id, mkTaskManager (<[new_id := RUNNING]> (tasks tm)) (tasks_results tm)).

(** [get_task_state]: [self._tasks.get(task_id, State.FAILED)]. *)
Definition get_task_state (tm : TaskManager) (task_id : string) : TaskState :=
  default FAILED (tasks tm !! task_id).

(** [change_task_state]: [self._tasks[task_id] = state]. *)
Definition change_task_state (task_id : string) (st : TaskState) (tm : TaskManager)
  : TaskManager :=
  mkTaskManager (<[task_id := st]> (tasks tm)) (tasks_results tm).

(** [set_task_result]: [self._tasks_results[task_id] = result]. *)
Definition set_task_result (task_id : string) (r : OptimizationResponse)
  (tm : TaskManager) : TaskManager :=
  mkTaskManager (tasks tm) (<[task_id := r]> (tasks_results tm)).

(** [get_task_result]: [self._tasks_results.get(task_id, None)]. *)
Definition get_task_result (tm : TaskManager) (task_id : string)
  : option OptimizationResponse :=
  tasks_results tm !! task_id.

(** The registry's operations and what each call returns. *)
Inductive op : Type :=
  | OpCreate (new_id : string)
  | OpGetState (task_id : string)
  | OpChange (task_id : string) (st : TaskState)
  | OpSetResult (task_id : string) (r : OptimizationResponse)
  | OpGetResult (task_id : string).

Inductive reply : Type :=
  | RId (id : string)
  | RState (st : TaskState)
  | RResult (r : option OptimizationResponse)
  | RNone.

Definition exec (o : op) (tm : TaskManager) : reply * TaskManager :=
  match o with
  | OpCreate new_id => let '(id, tm') := create_task new_id tm in (RId id, tm')
  | OpGetState id => (RState (get_task_state tm id), tm)
  | OpChange id st => (RNone, change_task_state id st tm)
  | OpSetResult id r => (RNone, set_task_result id r tm)
  | OpGetResult id => (RResult (get_task_result tm id), tm)
  end.

(** The registry after a sequence of calls, first call first. *)
Fixpoint run_ops (ops : list op) (tm : TaskManager) : TaskManager :=
  match ops with
  | [] => tm
  | o :: ops' => run_ops ops' (snd (exec o tm))
  end.

(** Whether a call writes the status of [id] ([_tasks[id] = ..]). *)
Definition writes_status (id : string) (o : op) : bool :=
  match o with
  | OpCreate new_id => bool_decide (new_id = id)
  | OpChange task_id _ => bool_decide (task_id = id)
  | _ => false
  end.

(** Whether a call writes anything under [id]. *)
Definition writes_id (id : string) (o : op) : bool :=
  match o with
  | OpCreate new_id => bool_decide (new_id = id)
  | OpChange task_id _ => bool_decide (task_id = id)
  | OpSetResult task_id _ => bool_decide (task_id = id)
  | _ => false
  end.

(** The result last stored under [id] by a [set_task_result] call of [ops]
    ([acc] when there is none): the reading of the amended statement about
    [get_task_result]. *)
Fixpoint last_stored_result (id : string) (ops : list op)
  (acc : option OptimizationResponse) : option OptimizationResponse :=
  match ops with
  | [] => acc
  | OpSetResult task_id r :: ops' =>
      last_stored_result id ops' (if bool_decide (task_id = id) then Some r else acc)
  | _ :: ops' => last_stored_result id ops' acc
  end.

End TaskRegistry.

(* ================================================================= *)
(** * Task registry: properties *)
(* ================================================================= *)

Module TaskRegistryFacts.
Import TaskRegistry.

Lemma exec_status_other (o : op) (tm : TaskManager) (id : string) :
  writes_status id o = false ->
  get_task_state (snd (exec o tm)) id = get_task_state tm id.
Proof.
  destruct o as [n|i|i st|i r|i]; cbn; intros H; try reflexivity;
    unfold get_task_state; cbn; rewrite lookup_insert_ne; try reflexivity;
    intros ->; rewrite bool_decide_eq_true_2 in H; congruence.
Qed.

Lemma exec_untouched (o : op) (tm : TaskManager) (id : string) :
  writes_id id o = false ->
  tasks (snd (exec o tm)) !! id = tasks tm !! id /\
  tasks_results (snd (exec o tm)) !! id = tasks_results tm !! id.
Proof.
  destruct o as [n|i|i st|i r|i]; cbn; intros H; split; try reflexivity;
    rewrite lookup_insert_ne; try reflexivity;
    intros ->; rewrite bool_decide_eq_true_2 in H; congruence.
Qed.

(** C6: right after [create_task], [get_task_state] on the returned id
    answers RUNNING. *)
Theorem create_task_then_running (tm : TaskManager) (new_id : string) :
  get_task_state (snd (create_task new_id tm)) (fst (create_task new_id tm))
  = RUNNING.
Proof.
  unfold get_task_state, create_task; cbn. by rewrite lookup_insert_eq.
Qed.

(** C3 (counterexample): on a fresh registry, the status query on an id
    that was never issued answers FAILED; it does not fail with NotFound. *)
Lemma unknown_id_status_is_failed :
  get_task_state init "never-issued" = FAILED /\
  get_task_result init "never-issued" = None.
Proof. split; reflexivity. Qed.

(** C3 (amended): for an id on which no call of the history wrote
    ([create_task], [change_task_state], [set_task_result]), the status
    query answers FAILED (so never RUNNING) and the result query answers
    [None]; neither call raises. *)
Theorem never_issued_failed_and_absent (ops : list op) (id : string) :
  Forall (fun o => writes_id id o = false) ops ->
  get_task_state (run_ops ops init) id = FAILED /\
  get_task_result (run_ops ops init) id = None.
Proof.
  assert (Hgen : forall tm, tasks tm !! id = None -> tasks_results tm !! id = None ->
            Forall (fun o => writes_id id o = false) ops ->
            tasks (run_ops ops tm) !! id = None /\
            tasks_results (run_ops ops tm) !! id = None).
  { induction ops as [|o ops IH]; intros tm H1 H2 Hf; cbn; [done|].
    inversion Hf as [|? ? Ho Hrest]; subst.
    destruct (exec_untouched o tm id Ho) as [E1 E2].
    apply IH; [by rewrite E1|by rewrite E2|done]. }
  intros Hf. destruct (Hgen init eq_refl eq_refl Hf) as [E1 E2].
  unfold get_task_state, get_task_result. by rewrite E1, E2.
Qed.

Lemma unknown_id_witness :
  Forall (fun o => writes_id "t9" o = false)
         [OpCreate "t1"; OpGetState "t9"; OpChange "t1" DONE] /\
  get_task_state (run_ops [OpCreate "t1"; OpGetState "t9"; OpChange "t1" DONE] init) "t9"
    = FAILED /\
  get_task_result (run_ops [OpCreate "t1"; OpGetState "t9"; OpChange "t1" DONE] init) "t9"
    = None.
Proof.
  assert (H : Forall (fun o => writes_id "t9" o = false)
                [OpCreate "t1"; OpGetState "t9"; OpChange "t1" DONE])
    by (repeat constructor).
  split; [exact H|]. exact (never_issued_failed_and_absent _ "t9" H).
Defined.

(** C4 (counterexample): a DONE status is overwritten by a later
    [change_task_state], even back to RUNNING. *)
Lemma done_status_changes_back :
  get_task_state (run_ops [OpCreate "t"; OpChange "t" DONE] init) "t" = DONE /\
  get_task_state (run_ops [OpCreate "t"; OpChange "t" DONE; OpChange "t" RUNNING] init) "t"
    = RUNNING.
Proof. split; reflexivity. Qed.

(** C4 (amended): calls that do not write the status of [id] (every call
    other than [change_task_state id _] and [create_task] drawing [id])
    leave that status as it is; and status and result queries leave the
    registry unchanged, so repeating one answers the same value. *)
Theorem status_kept_by_other_calls (ops : list op) (tm : TaskManager) (id : string) :
  Forall (fun o => writes_status id o = false) ops ->
  get_task_state (run_ops ops tm) id = get_task_state tm id /\
  (forall i, snd (exec (OpGetState i) tm) = tm /\ snd (exec (OpGetResult i) tm) = tm) /\
  (forall i, fst (exec (OpGetState i) (snd (exec (OpGetState i) tm)))
             = fst (exec (OpGetState i) tm)) /\
  (forall i, fst (exec (OpGetResult i) (snd (exec (OpGetResult i) tm)))
             = fst (exec (OpGetResult i) tm)).
Proof.
  intros Hf. split; [|split; [|split]]; try (intros i; cbn; auto).
  revert tm. induction ops as [|o ops IH]; intros tm; cbn; [done|].
  inversion Hf as [|? ? Ho Hrest]; subst.
  rewrite (IH Hrest). by apply exec_status_other.
Qed.

Lemma status_kept_witness :
  Forall (fun o => writes_status "t" o = false)
    [OpGetState "t"; OpSetResult "t" (mkResponse [] [] []); OpChange "u" FAILED] /\
  get_task_state (run_ops [OpGetState "t"; OpSetResult "t" (mkResponse [] [] []);
                           OpChange "u" FAILED] (change_task_state "t" DONE init)) "t"
  = DONE.
Proof.
  assert (H : Forall (fun o => writes_status "t" o = false)
    [OpGetState "t"; OpSetResult "t" (mkResponse [] [] []); OpChange "u" FAILED])
    by (repeat constructor).
  split; [exact H|].
  exact (proj1 (status_kept_by_other_calls _ (change_task_state "t" DONE init) "t" H)).
Defined.

(** C5 (counterexample): a result stored for a task that is still RUNNING
    is returned by [get_task_result]. *)
Lemma result_returned_while_running :
  get_task_state (run_ops [OpCreate "t"; OpSetResult "t" (mkResponse [] [] [])] init) "t"
    = RUNNING /\
  get_task_result (run_ops [OpCreate "t"; OpSetResult "t" (mkResponse [] [] [])] init) "t"
    = Some (mkResponse [] [] []).
Proof. split; reflexivity. Qed.

(** C5 (amended): [get_task_result] answers the result last stored under
    the id by [set_task_result], whatever the task's status, and [None]
    when none was stored (so in particular for a never-issued id). *)
Theorem result_is_last_stored (ops : list op) (tm : TaskManager) (id : string) :
  get_task_result (run_ops ops tm) id
  = last_stored_result id ops (get_task_result tm id).
Proof.
  revert tm. induction ops as [|o ops IH]; intros tm; cbn; [done|].
  rewrite IH. destruct o as [n|i|i st|i r|i]; cbn; try reflexivity.
  unfold get_task_result; cbn. case_bool_decide as E.
  - subst. by rewrite lookup_insert_eq.
  - by rewrite lookup_insert_ne.
Qed.

End TaskRegistryFacts.

(* ================================================================= *)
(** * Sort stage: properties *)
(* ================================================================= *)

Module WorkloadFacts.
Import Workload.

Section SortBy.
Context {A : Type} (key : A -> Z).

Lemma insert_by_perm (x : A) (l : list A) : Permutation (x :: l) (insert_by key x l).
Proof.
  induction l as [|y l IH]; cbn; [done|].
  destruct (key x <? key y)%Z; [|done].
  etransitivity; [apply perm_swap|]. by constructor.
Qed.

Lemma sort_by_perm (l : list A) : Permutation l (sort_by key l).
Proof.
  induction l as [|x l IH]; cbn; [done|].
  etransitivity; [|apply insert_by_perm]. by constructor.
Qed.

Let desc (a b : A) : Prop := (key b <= key a)%Z.

Lemma insert_by_hd (z x : A) (l : list A) :
  HdRel desc z l -> desc z x -> HdRel desc z (insert_by key x l).
Proof.
  destruct l as [|y l]; cbn; intros H Hzx; [by constructor|].
  destruct (key x <? key y)%Z; constructor; [by inversion H|done].
Qed.

Lemma insert_by_sorted (x : A) (l : list A) :
  Sorted desc l -> Sorted desc (insert_by key x l).
Proof.
  induction l as [|y l IH]; cbn; intros H; [by repeat constructor|].
  inversion H as [|? ? Hl Hhd]; subst.
  destruct (key x <? key y)%Z eqn:E.
  - apply Z.ltb_lt in E. constructor; [by apply IH|].
    apply insert_by_hd; [done|]. unfold desc; lia.
  - apply Z.ltb_ge in E. constructor; [by constructor|]. constructor. unfold desc; lia.
Qed.

Lemma sort_by_sorted (l : list A) : Sorted desc (sort_by key l).
Proof.
  induction l as [|x l IH]; cbn; [constructor|]. by apply insert_by_sorted.
Qed.

Lemma insert_by_filter (k : Z) (x : A) (l : list A) :
  List.filter (fun q => (key q =? k)%Z) (insert_by key x l)
  = if (key x =? k)%Z then x :: List.filter (fun q => (key q =? k)%Z) l
    else List.filter (fun q => (key q =? k)%Z) l.
Proof.
  induction l as [|y l IH]; cbn; [done|].
  destruct (key x <? key y)%Z eqn:E; cbn.
  - rewrite IH. destruct (key x =? k)%Z eqn:Ex, (key y =? k)%Z eqn:Ey; try done.
    apply Z.eqb_eq in Ex, Ey. apply Z.ltb_lt in E. lia.
  - by destruct (key x =? k)%Z.
Qed.

Lemma sort_by_stable (k : Z) (l : list A) :
  List.filter (fun q => (key q =? k)%Z) (sort_by key l)
  = List.filter (fun q => (key q =? k)%Z) l.
Proof.
  induction l as [|x l IH]; cbn; [done|].
  rewrite insert_by_filter, IH. by destruct (key x =? k)%Z.
Qed.

End SortBy.

Lemma sort_key_well_typed (q : QueryDetails) :
  well_typed q -> sort_key q = Some (VInt (impact q)).
Proof.
  unfold sort_key, impact.
  intros [[Hr|[r Hr]] [He|[e He]]]; rewrite Hr, He; reflexivity.
Qed.

Lemma map_option_keys (l : list QueryDetails) :
  Forall well_typed l ->
  map_option sort_key l = Some (map (fun q => VInt (impact q)) l).
Proof.
  induction l as [|q l IH]; intros Hf; cbn; [done|].
  inversion Hf; subst. rewrite sort_key_well_typed by done. by rewrite IH.
Qed.

Definition decorate (q : QueryDetails) : pyval * QueryDetails := (VInt (impact q), q).

Lemma insert_desc_int (x : QueryDetails) (l : list QueryDetails) :
  insert_desc (decorate x) (map decorate l) = Some (map decorate (insert_by impact x l)).
Proof.
  induction l as [|y l IH]; cbn; [done|].
  destruct (impact x <? impact y)%Z; [|done]. by rewrite IH.
Qed.

Lemma sort_desc_int (l : list QueryDetails) :
  sort_desc (map decorate l) = Some (map decorate (sort_by impact l)).
Proof.
  induction l as [|x l IH]; cbn; [done|]. rewrite IH. apply insert_desc_int.
Qed.

Lemma zip_keys (l : list QueryDetails) :
  zip (map (fun q => VInt (impact q)) l) l = map decorate l.
Proof. induction l as [|q l IH]; cbn; [done|]. by rewrite IH. Qed.

Lemma map_snd_decorate (l : list QueryDetails) : map snd (map decorate l) = l.
Proof. induction l as [|q l IH]; cbn; [done|]. by rewrite IH. Qed.

Lemma sorted_queries_well_typed (l : list QueryDetails) :
  Forall well_typed l -> sorted_queries l = Some (sort_by impact l).
Proof.
  intros Hf. unfold sorted_queries. rewrite map_option_keys by done.
  rewrite zip_keys, sort_desc_int. by rewrite map_snd_decorate.
Qed.

(** General facts on the fallible sort, whatever the keys. *)
Lemma insert_desc_perm {B : Type} (x : pyval * B) (l l' : list (pyval * B)) :
  insert_desc x l = Some l' -> Permutation (x :: l) l'.
Proof.
  revert l'. induction l as [|y l IH]; cbn; intros l' H.
  - by injection H as <-.
  - destruct (py_lt (fst x) (fst y)) as [[|]|]; try discriminate.
    + destruct (insert_desc x l) as [l''|] eqn:E; [|discriminate].
      injection H as <-. etransitivity; [apply perm_swap|]. constructor. by apply IH.
    + by injection H as <-.
Qed.

Lemma sort_desc_perm {B : Type} (l l' : list (pyval * B)) :
  sort_desc l = Some l' -> Permutation l l'.
Proof.
  revert l'. induction l as [|x l IH]; cbn; intros l' H.
  - by injection H as <-.
  - destruct (sort_desc l) as [s|] eqn:E; [|discriminate].
    etransitivity; [|by apply insert_desc_perm]. constructor. by apply IH.
Qed.

Lemma map_option_length {B C : Type} (f : B -> option C) (l : list B) (l' : list C) :
  map_option f l = Some l' -> length l' = length l.
Proof.
  revert l'. induction l as [|x l IH]; cbn; intros l' H.
  - by injection H as <-.
  - destruct (f x); [|discriminate]. destruct (map_option f l) eqn:E; [|discriminate].
    injection H as <-. cbn. f_equal. by apply IH.
Qed.

Lemma map_snd_zip {B C : Type} (ks : list B) (l : list C) :
  length ks = length l -> map snd (zip ks l) = l.
Proof.
  revert l. induction ks as [|k ks IH]; intros [|x l] H; cbn in *; try done.
  f_equal. apply IH. lia.
Qed.

Lemma sorted_queries_perm (l l' : list QueryDetails) :
  sorted_queries l = Some l' -> Permutation l l'.
Proof.
  unfold sorted_queries.
  destruct (map_option sort_key l) as [keys|] eqn:Ek; [|discriminate].
  destruct (sort_desc (zip keys l)) as [s|] eqn:Es; [|discriminate].
  intros H. injection H as <-.
  rewrite <- (map_snd_zip keys l) at 1 by (eapply map_option_length; eauto).
  apply Permutation_map. by apply sort_desc_perm.
Qed.

(** C1 (counterexample): a non-numeric metric is not read as zero: the
    key of the first item is the string ["55"] ([2 * "5"]), and comparing
    it with the integer key of the second item raises [TypeError], so the
    sort stage returns no ordering at all. *)
Lemma non_numeric_metric_raises :
  sorted_queries
    [mkQuery "q1" "SELECT 1" (Some (VInt 2)) (Some (VStr "5"));
     mkQuery "q2" "SELECT 2" (Some (VInt 3)) (Some (VInt 1))] = None.
Proof. vm_compute. reflexivity. Qed.

(** C1 (amended): for a workload whose metrics are integers or absent,
    the sort stage succeeds and returns the same items, non-increasing in
    impact (an absent metric counting as zero), items of equal impact in
    their original relative order. *)
Theorem sort_stage_orders_by_impact (queries : list QueryDetails) :
  Forall well_typed queries ->
  exists out, sorted_queries queries = Some out /\
    Permutation queries out /\
    Sorted (fun a b => impact b <= impact a)%Z out /\
    (forall k, List.filter (fun q => (impact q =? k)%Z) out
               = List.filter (fun q => (impact q =? k)%Z) queries).
Proof.
  intros Hf. exists (sort_by impact queries).
  split; [by apply sorted_queries_well_typed|].
  split; [apply sort_by_perm|]. split; [apply sort_by_sorted|].
  intros k. apply sort_by_stable.
Qed.

Lemma sort_stage_orders_by_impact_witness :
  Forall well_typed
    [mkQuery "A" "SELECT a" (Some (VInt 2)) (Some (VInt 5));
     mkQuery "B" "SELECT b" (Some (VInt 0)) (Some (VInt 100));
     mkQuery "C" "SELECT c" None (Some (VInt 3))] /\
  exists out, sorted_queries
    [mkQuery "A" "SELECT a" (Some (VInt 2)) (Some (VInt 5));
     mkQuery "B" "SELECT b" (Some (VInt 0)) (Some (VInt 100));
     mkQuery "C" "SELECT c" None (Some (VInt 3))] = Some out /\
    Permutation
    [mkQuery "A" "SELECT a" (Some (VInt 2)) (Some (VInt 5));
     mkQuery "B" "SELECT b" (Some (VInt 0)) (Some (VInt 100));
     mkQuery "C" "SELECT c" None (Some (VInt 3))] out /\
    Sorted (fun a b => impact b <= impact a)%Z out /\
    (forall k, List.filter (fun q => (impact q =? k)%Z) out
               = List.filter (fun q => (impact q =? k)%Z)
    [mkQuery "A" "SELECT a" (Some (VInt 2)) (Some (VInt 5));
     mkQuery "B" "SELECT b" (Some (VInt 0)) (Some (VInt 100));
     mkQuery "C" "SELECT c" None (Some (VInt 3))]).
Proof.
  assert (H : Forall well_typed
    [mkQuery "A" "SELECT a" (Some (VInt 2)) (Some (VInt 5));
     mkQuery "B" "SELECT b" (Some (VInt 0)) (Some (VInt 100));
     mkQuery "C" "SELECT c" None (Some (VInt 3))]).
  { repeat (apply List.Forall_cons;
      [split; unfold numeric_or_absent;
       first [left; reflexivity | right; eexists; reflexivity]|]).
    apply List.Forall_nil. }
  split; [exact H|]. exact (sort_stage_orders_by_impact _ H).
Defined.

End WorkloadFacts.

(* ================================================================= *)
(** * Pipeline stages: properties *)
(* ================================================================= *)

Module PipelineFacts.
Import Workload WorkloadFacts Pipeline.

Lemma process_queries_ids (oq : string -> list string -> option string)
  (st : State) (qs : list QueryDetails) (outs : list (string * string)) :
  map_option (process_query oq st) qs = Some outs -> map fst outs = map queryid qs.
Proof.
  revert outs. induction qs as [|q qs IH]; cbn; intros outs H.
  - by injection H as <-.
  - destruct (process_query oq st q) as [p|] eqn:Ep; [|discriminate].
    destruct (map_option (process_query oq st) qs) eqn:E; [|discriminate].
    injection H as <-. cbn. f_equal; [|by apply IH].
    unfold process_query in Ep.
    destruct (oq (query q) (out_migrations st)); cbn in Ep; [|discriminate].
    by injection Ep as <-.
Qed.

Lemma process_queries_fail (oq : string -> list string -> option string)
  (st : State) (qs : list QueryDetails) (q : QueryDetails) :
  In q qs -> oq (query q) (out_migrations st) = None ->
  map_option (process_query oq st) qs = None.
Proof.
  induction qs as [|q' qs IH]; cbn; [done|]. intros [->|Hin] Hq.
  - assert (E : process_query oq st q = None) by (unfold process_query; by rewrite Hq).
    by rewrite E.
  - rewrite (IH Hin Hq). by destruct (process_query oq st q').
Qed.

Lemma process_queries_succeed (oq : string -> list string -> option string)
  (st : State) (qs : list QueryDetails) :
  Forall (fun q => oq (query q) (out_migrations st) <> None) qs ->
  exists outs, map_option (process_query oq st) qs = Some outs.
Proof.
  induction qs as [|q qs IH]; cbn; intros Hf; [by eexists|].
  inversion Hf as [|? ? Hq Hrest]; subst.
  destruct (IH Hrest) as [outs E].
  destruct (oq (query q) (out_migrations st)) as [o|] eqn:Eo; [|done].
  assert (Ep : process_query oq st q = Some (queryid q, o))
    by (unfold process_query; by rewrite Eo).
  rewrite Ep, E. by eexists.
Qed.

Lemma map_eq_lookup {B C D : Type} (f : B -> D) (g : C -> D) (l1 : list B) (l2 : list C) :
  map f l1 = map g l2 -> forall i, f <$> l1 !! i = g <$> l2 !! i.
Proof.
  revert l2. induction l1 as [|x l1 IH]; intros [|y l2] H i; cbn in *; try done.
  injection H as Hxy Hl. destruct i as [|i]; cbn; [by rewrite Hxy|]. by apply IH.
Qed.

Lemma optimize_queries_node_ids llm pr cl po (st : State) :
  map fst (out_queries (optimize_queries_node llm pr cl po st)) = map queryid (queries st).
Proof.
  unfold optimize_queries_node; cbn. rewrite map_map.
  apply map_ext. intros q. unfold process_single_query.
  by destruct (rewrite_attempt llm pr cl po (query q)).
Qed.

(** C2 (counterexample): in [GoogleOptimizerAgent.optimize_queries] (the
    pipeline run by the [/tasks/new] route) one failing rewrite makes the
    whole stage fail instead of keeping that item's original SQL. *)
Lemma one_failed_rewrite_fails_stage :
  optimize_queries
    (fun sql _ => if String.eqb sql "SELECT 2" then None else Some sql)
    (mkState ∅ [] [mkQuery "q1" "SELECT 1" (Some (VInt 1)) (Some (VInt 1));
                   mkQuery "q2" "SELECT 2" (Some (VInt 1)) (Some (VInt 1))]
             "" [] [] [])
  = None.
Proof. vm_compute. reflexivity. Qed.

(** C2 (amended): the [GoogleOptimizerAgent] fan-out, whenever it
    completes, has one entry per input item, in input order, keyed by the
    item's identifier, and it fails as a whole as soon as one rewrite
    fails; the [QueryOptimizerAgent] fan-out always completes with one
    entry per item keyed by its identifier, and an item whose rewrite
    attempt fails keeps its original SQL text. *)
Theorem fanout_one_entry_per_item (st : State) :
  (forall oq st', optimize_queries oq st = Some st' ->
     map fst (out_queries st') = map queryid (queries st)) /\
  (forall oq q, In q (queries st) -> oq (query q) (out_migrations st) = None ->
     optimize_queries oq st = None) /\
  (forall llm pr cl po,
     map fst (out_queries (optimize_queries_node llm pr cl po st))
       = map queryid (queries st) /\
     Forall2 (fun q e => rewrite_attempt llm pr cl po (query q) = None ->
                         e = (queryid q, query q))
       (queries st) (out_queries (optimize_queries_node llm pr cl po st))).
Proof.
  split; [|split].
  - intros oq st' H. unfold optimize_queries in H.
    destruct (map_option (process_query oq st) (queries st)) as [outs|] eqn:E;
      [|discriminate].
    injection H as <-. cbn. by eapply process_queries_ids.
  - intros oq q Hin Hq. unfold optimize_queries.
    by rewrite (process_queries_fail oq st (queries st) q Hin Hq).
  - intros llm pr cl po. split; [apply optimize_queries_node_ids|].
    unfold optimize_queries_node; cbn.
    induction (queries st) as [|q qs IH]; cbn; constructor; [|done].
    intros Hq. unfold process_single_query. by rewrite Hq.
Qed.

Lemma fanout_one_entry_per_item_witness :
  In (mkQuery "q2" "SELECT 2" (Some (VInt 1)) (Some (VInt 1)))
     [mkQuery "q1" "SELECT 1" (Some (VInt 1)) (Some (VInt 1));
      mkQuery "q2" "SELECT 2" (Some (VInt 1)) (Some (VInt 1))] /\
  optimize_queries (fun sql _ => if String.eqb sql "SELECT 2" then None else Some sql)
    (mkState ∅ [] [mkQuery "q1" "SELECT 1" (Some (VInt 1)) (Some (VInt 1));
                   mkQuery "q2" "SELECT 2" (Some (VInt 1)) (Some (VInt 1))]
             "" [] [] []) = None.
Proof.
  assert (Hin : In (mkQuery "q2" "SELECT 2" (Some (VInt 1)) (Some (VInt 1)))
     [mkQuery "q1" "SELECT 1" (Some (VInt 1)) (Some (VInt 1));
      mkQuery "q2" "SELECT 2" (Some (VInt 1)) (Some (VInt 1))])
    by (right; left; reflexivity).
  split; [exact Hin|].
  refine (proj1 (proj2 (fanout_one_entry_per_item
    (mkState ∅ [] [mkQuery "q1" "SELECT 1" (Some (VInt 1)) (Some (VInt 1));
                   mkQuery "q2" "SELECT 2" (Some (VInt 1)) (Some (VInt 1))]
             "" [] [] []))) _ _ Hin _).
  vm_compute. reflexivity.
Defined.

(** C10: when every rewrite succeeds, the [GoogleOptimizerAgent] fan-out
    completes and its i-th entry carries the identifier of the i-th item of
    its input workload ([asyncio.gather] returns results in argument
    order); the [QueryOptimizerAgent] fan-out does so unconditionally. *)
Theorem fanout_keeps_dispatch_order
  (optimize_query : string -> list string -> option string) (st : State) :
  Forall (fun q => optimize_query (query q) (out_migrations st) <> None) (queries st) ->
  (exists st', optimize_queries optimize_query st = Some st' /\
     length (out_queries st') = length (queries st) /\
     forall i, fst <$> out_queries st' !! i = queryid <$> queries st !! i) /\
  (forall llm pr cl po i,
     fst <$> out_queries (optimize_queries_node llm pr cl po st) !! i
     = queryid <$> queries st !! i).
Proof.
  intros Hf. split.
  - destruct (process_queries_succeed optimize_query st (queries st) Hf) as [outs E].
    exists (set_out_queries st outs). unfold optimize_queries. rewrite E.
    split; [done|]. cbn.
    pose proof (process_queries_ids _ _ _ _ E) as Hids.
    split.
    + rewrite <- (length_map fst outs), Hids. apply length_map.
    + by apply map_eq_lookup.
  - intros llm pr cl po. apply map_eq_lookup. apply optimize_queries_node_ids.
Qed.

Lemma fanout_keeps_dispatch_order_witness :
  Forall (fun q => Some (query q) <> None)
    [mkQuery "q1" "SELECT 1" (Some (VInt 1)) (Some (VInt 1));
     mkQuery "q2" "SELECT 2" (Some (VInt 1)) (Some (VInt 1))] /\
  exists st', optimize_queries (fun sql _ => Some sql)
    (mkState ∅ [] [mkQuery "q1" "SELECT 1" (Some (VInt 1)) (Some (VInt 1));
                   mkQuery "q2" "SELECT 2" (Some (VInt 1)) (Some (VInt 1))]
             "" [] [] []) = Some st' /\
    length (out_queries st') = 2%nat.
Proof.
  assert (H : Forall (fun q => Some (query q) <> None)
    [mkQuery "q1" "SELECT 1" (Some (VInt 1)) (Some (VInt 1));
     mkQuery "q2" "SELECT 2" (Some (VInt 1)) (Some (VInt 1))]).
  { repeat (apply List.Forall_cons; [discriminate|]). apply List.Forall_nil. }
  split; [exact H|].
  destruct (proj1 (fanout_keeps_dispatch_order (fun sql _ => Some sql)
    (mkState ∅ [] [mkQuery "q1" "SELECT 1" (Some (VInt 1)) (Some (VInt 1));
                   mkQuery "q2" "SELECT 2" (Some (VInt 1)) (Some (VInt 1))]
             "" [] [] []) H)) as [st' [E [Hlen _]]].
  exists st'. split; [exact E|]. exact Hlen.
Defined.

(** C9: the sort stage permutes the items of the workload and leaves every
    other field of the state as it was; the later stages never write the
    workload field. *)
Theorem stages_keep_items (st st' : State) :
  sort_queries_by_total_time st = Some st' ->
  Permutation (queries st) (queries st') /\
  metadata st' = metadata st /\ ddl_statements st' = ddl_statements st /\
  optimization_plan st' = optimization_plan st /\
  out_ddl_statements st' = out_ddl_statements st /\
  out_migrations st' = out_migrations st /\ out_queries st' = out_queries st /\
  (forall a s s', analyze_schema a s = Some s' -> queries s' = queries s) /\
  (forall d s s', develop_ddl d s = Some s' -> queries s' = queries s) /\
  (forall m s s', generate_migrations m s = Some s' -> queries s' = queries s) /\
  (forall o s s', optimize_queries o s = Some s' -> queries s' = queries s) /\
  (forall llm pr cl po s, queries (optimize_queries_node llm pr cl po s) = queries s).
Proof.
  unfold sort_queries_by_total_time. intros H.
  destruct (sorted_queries (queries st)) as [qs|] eqn:E; cbn in H; [|discriminate].
  injection H as <-. cbn.
  split; [by apply sorted_queries_perm|].
  do 6 (split; [reflexivity|]).
  split; [intros a s s' Hs; unfold analyze_schema in Hs;
          destruct (a _ _); cbn in Hs; [by injection Hs as <-|discriminate]|].
  split; [intros d s s' Hs; unfold develop_ddl in Hs;
          destruct (d _ _); cbn in Hs; [by injection Hs as <-|discriminate]|].
  split; [intros m s s' Hs; unfold generate_migrations in Hs;
          destruct (m _ _ _); cbn in Hs; [by injection Hs as <-|discriminate]|].
  split; [intros o s s' Hs; unfold optimize_queries in Hs;
          destruct (map_option _ _); cbn in Hs; [by injection Hs as <-|discriminate]|].
  intros; reflexivity.
Qed.

Lemma stages_keep_items_witness :
  sort_queries_by_total_time
    (mkState ∅ [] [mkQuery "C" "SELECT c" (Some (VInt 3)) (Some (VInt 1));
                   mkQuery "A" "SELECT a" (Some (VInt 2)) (Some (VInt 5))] "" [] [] [])
  = Some (mkState ∅ [] [mkQuery "A" "SELECT a" (Some (VInt 2)) (Some (VInt 5));
                        mkQuery "C" "SELECT c" (Some (VInt 3)) (Some (VInt 1))] "" [] [] []) /\
  Permutation
    [mkQuery "C" "SELECT c" (Some (VInt 3)) (Some (VInt 1));
     mkQuery "A" "SELECT a" (Some (VInt 2)) (Some (VInt 5))]
    [mkQuery "A" "SELECT a" (Some (VInt 2)) (Some (VInt 5));
     mkQuery "C" "SELECT c" (Some (VInt 3)) (Some (VInt 1))].
Proof.
  assert (H : sort_queries_by_total_time
    (mkState ∅ [] [mkQuery "C" "SELECT c" (Some (VInt 3)) (Some (VInt 1));
                   mkQuery "A" "SELECT a" (Some (VInt 2)) (Some (VInt 5))] "" [] [] [])
  = Some (mkState ∅ [] [mkQuery "A" "SELECT a" (Some (VInt 2)) (Some (VInt 5));
                        mkQuery "C" "SELECT c" (Some (VInt 3)) (Some (VInt 1))] "" [] [] []))
    by (vm_compute; reflexivity).
  split; [exact H|]. exact (proj1 (stages_keep_items _ _ H)).
Defined.

End PipelineFacts.

(** * Facts about the output sanitizer *)
Module SanitizerFacts.
Import Sanitizer.
Local Arguments is_nl : simpl never.
Local Arguments is_tick : simpl never.
Local Arguments is_word : simpl never.
Local Arguments is_space : simpl never.
Local Arguments String.append : simpl nomatch.

(** Strings. *)
Lemma app_empty_r (s : string) : s +:+ EmptyString = s.
Proof. induction s as [|c s IH]; simpl; [done|]. by rewrite IH. Qed.

Lemma app_assoc_str (a b c : string) : (a +:+ b) +:+ c = a +:+ (b +:+ c).
Proof. induction a as [|x a IH]; simpl; [done|]. by rewrite IH. Qed.

Lemma has_char_app (p : ascii -> bool) (a b : string) :
  has_char p (a +:+ b) = has_char p a || has_char p b.
Proof. induction a as [|x a IH]; simpl; [done|]. by rewrite IH, orb_assoc. Qed.

Lemma last_char_split (l : string) (c : ascii) :
  last_char l = Some c -> exists p, l = p +:+ String c EmptyString.
Proof.
  induction l as [|a t IH]; cbn; [discriminate|]. destruct t as [|b t'].
  - intros [= ->]. by exists EmptyString.
  - intros H. destruct (IH H) as [p Hp]. exists (String a p). cbn. by rewrite <- Hp.
Qed.

Lemma last_char_app (p : string) (c : ascii) : last_char (p +:+ String c EmptyString) = Some c.
Proof.
  induction p as [|a p IH]; simpl; [done|].
  destruct (p +:+ String c EmptyString) eqn:E; [|done].
  destruct p; discriminate.
Qed.

Lemma last_char_cons2 (a b : ascii) (t : string) :
  last_char (String a (String b t)) = last_char (String b t).
Proof. reflexivity. Qed.

(** Characters. *)
Lemma semi_chars :
  is_nl ";" = false /\ is_tick ";" = false /\ is_word ";" = false /\ is_space ";" = false.
Proof. repeat split; reflexivity. Qed.

Lemma tick_tick : is_tick "`" = true.
Proof. reflexivity. Qed.

Lemma nl_chars : is_nl nl = true /\ is_tick nl = false /\ is_word nl = false.
Proof. repeat split; reflexivity. Qed.

Lemma word_not_nl (c : ascii) : is_word c = true -> is_nl c = false.
Proof.
  unfold is_nl at 1. destruct (Ascii.eqb_spec c nl) as [->|]; [|done].
  by rewrite (proj2 (proj2 nl_chars)).
Qed.

Lemma tick_not_nl (c : ascii) : is_tick c = true -> is_nl c = false.
Proof.
  unfold is_nl at 1. destruct (Ascii.eqb_spec c nl) as [->|]; [|done].
  by rewrite (proj1 (proj2 nl_chars)).
Qed.

Lemma tick_not_semi (c : ascii) : is_tick c = true -> c <> ";"%char.
Proof. intros H ->. by rewrite (proj1 (proj2 semi_chars)) in H. Qed.

Lemma last_semicolon_nonword (s : string) :
  last_char s = Some ";"%char -> has_char (fun d => negb (is_word d)) s = true.
Proof.
  intros H. destruct (last_char_split _ _ H) as [p ->].
  rewrite has_char_app. cbn. rewrite (proj1 (proj2 (proj2 semi_chars))).
  apply orb_true_r.
Qed.

Lemma last_semicolon_nonspace (s : string) :
  last_char s = Some ";"%char -> has_char (fun d => negb (is_space d)) s = true.
Proof.
  intros H. destruct (last_char_split _ _ H) as [p ->].
  rewrite has_char_app. cbn. rewrite (proj2 (proj2 (proj2 semi_chars))).
  apply orb_true_r.
Qed.

(** [sub_open]. *)
Lemma sub_open_false_line (x y : string) :
  has_char is_nl x = false ->
  sub_open false (x +:+ String nl y) = x +:+ String nl (sub_open true y).
Proof.
  induction x as [|c x IH]; cbn; intros H.
  - by rewrite (proj1 nl_chars).
  - apply orb_false_iff in H as [Hc Hx]. rewrite Hc. f_equal. by apply IH.
Qed.

Lemma sub_open_tick (c c2 c3 : ascii) (r : string) : is_tick c = true ->
  sub_open true (String c (String c2 (String c3 r))) =
  if is_tick c2 && is_tick c3
  then tag_scan (String c (sub_open false (String c2 (String c3 r)))) r
  else String c (sub_open false (String c2 (String c3 r))).
Proof.
  intros H. simpl. rewrite H. simpl. destruct (is_tick c2 && is_tick c3); reflexivity.
Qed.

Lemma sub_open_notick (c : ascii) (t : string) : is_tick c = false ->
  sub_open true (String c t) = String c (sub_open (is_nl c) t).
Proof. intros H. simpl. by rewrite H. Qed.

Lemma tag_scan_cons (fb : string) (d : ascii) (v : string) :
  tag_scan fb (String d v)
  = if is_nl d then sub_open true v else if is_word d then tag_scan fb v else fb.
Proof. reflexivity. Qed.

Lemma tag_scan_word (fb w v : string) :
  has_char (fun d => negb (is_word d)) w = false ->
  tag_scan fb (w +:+ String nl v) = sub_open true v.
Proof.
  induction w as [|d w IH]; cbn [append has_char]; intros H.
  - rewrite tag_scan_cons. by rewrite (proj1 nl_chars).
  - apply orb_false_iff in H as [Hd Hw]. apply negb_false_iff in Hd.
    rewrite tag_scan_cons, (word_not_nl d Hd), Hd. by apply IH.
Qed.

Lemma tag_scan_fail (fb x v : string) :
  has_char is_nl x = false -> has_char (fun d => negb (is_word d)) x = true ->
  tag_scan fb (x +:+ String nl v) = fb.
Proof.
  induction x as [|d x IH]; cbn [append has_char]; intros Hn Hw; [discriminate|].
  apply orb_false_iff in Hn as [Hdn Hxn].
  rewrite tag_scan_cons, Hdn. destruct (is_word d) eqn:Hd; [|done].
  apply IH; [done|]. by rewrite orb_false_l in Hw.
Qed.

Lemma sub_open_line (l rest : string) :
  semicolon_line l ->
  sub_open true (l +:+ String nl rest) = l +:+ String nl (sub_open true rest).
Proof.
  intros [Hn Hlast]. destruct l as [|c t]; [discriminate|].
  cbn [append]. cbn [has_char] in Hn. apply orb_false_iff in Hn as [Hcn Htn].
  destruct (is_tick c) eqn:Ec.
  - destruct t as [|c2 [|c3 r]]; cbn [append].
    + cbn in Hlast. injection Hlast as ->. by apply tick_not_semi in Ec.
    + rewrite sub_open_tick by done. rewrite (proj1 (proj2 nl_chars)), andb_false_r.
      f_equal. exact (sub_open_false_line (String c2 EmptyString) rest Htn).
    + rewrite sub_open_tick by done.
      destruct (is_tick c2 && is_tick c3) eqn:E23.
      * apply andb_true_iff in E23 as [_ E3].
        destruct r as [|d r'].
        { cbn in Hlast. injection Hlast as ->. by apply tick_not_semi in E3. }
        rewrite (tag_scan_fail _ (String d r') rest).
        -- f_equal. exact (sub_open_false_line (String c2 (String c3 (String d r'))) rest Htn).
        -- clear -Htn. cbn [has_char] in Htn.
           apply orb_false_iff in Htn as [_ Htn]. apply orb_false_iff in Htn as [_ Htn].
           exact Htn.
        -- apply last_semicolon_nonword.
           by rewrite !last_char_cons2 in Hlast.
      * f_equal. exact (sub_open_false_line (String c2 (String c3 r)) rest Htn).
  - rewrite sub_open_notick by done. rewrite Hcn. f_equal. by apply sub_open_false_line.
Qed.

Lemma sub_open_fence (tag v : string) :
  word_tag tag ->
  sub_open true ("```" +:+ tag +:+ String nl v) = sub_open true v.
Proof.
  intros Ht. cbn [append]. rewrite sub_open_tick by exact tick_tick.
  rewrite tick_tick. cbn [andb]. by apply tag_scan_word.
Qed.

(** [sub_close]. *)
Lemma sub_close_cons_nomatch (c : ascii) (t : string) :
  (forall c1 c2 c3 r, t = String c1 (String c2 (String c3 r)) ->
     (is_nl c && is_tick c1 && is_tick c2 && is_tick c3 && at_line_end r) = false) ->
  sub_close (String c t) = String c (sub_close t).
Proof.
  intros H. destruct t as [|c1 [|c2 [|c3 r]]]; try reflexivity.
  cbn [sub_close]. by rewrite (H c1 c2 c3 r eq_refl).
Qed.

Lemma sub_close_noline (x y : string) :
  has_char is_nl x = false -> sub_close (x +:+ y) = x +:+ sub_close y.
Proof.
  induction x as [|c x IH]; cbn [append has_char]; intros H; [done|].
  apply orb_false_iff in H as [Hc Hx].
  rewrite sub_close_cons_nomatch.
  - f_equal. by apply IH.
  - intros. by rewrite Hc.
Qed.

Lemma sub_close_nl_line (l y : string) :
  semicolon_line l -> sub_close (String nl (l +:+ y)) = String nl (l +:+ sub_close y).
Proof.
  intros Hl. rewrite sub_close_cons_nomatch.
  - f_equal. apply sub_close_noline, Hl.
  - destruct Hl as [Hn Hlast]. intros c1 c2 c3 r E.
    destruct l as [|a1 [|a2 [|a3 r']]]; cbn [append] in E.
    + discriminate.
    + injection Hlast as ->. injection E as <- _.
      by rewrite (proj1 (proj2 semi_chars)), andb_false_r.
    + cbn in Hlast. injection Hlast as ->. injection E as _ <- _.
      by rewrite (proj1 (proj2 semi_chars)), !andb_false_r.
    + injection E as <- <- <- <-.
      destruct (is_tick a3) eqn:E3; [|by rewrite !andb_false_r].
      destruct r' as [|d r''].
      * cbn in Hlast. injection Hlast as ->. by apply tick_not_semi in E3.
      * cbn [append at_line_end].
        cbn [has_char] in Hn. apply orb_false_iff in Hn as [_ Hn].
        apply orb_false_iff in Hn as [_ Hn]. apply orb_false_iff in Hn as [_ Hn].
        apply orb_false_iff in Hn as [Hd _]. by rewrite Hd, andb_false_r.
Qed.

(** [remove_ticks]. *)
Lemma remove_ticks_cons3 (a b d : ascii) (r : string) :
  remove_ticks (String a (String b (String d r)))
  = if is_tick a && is_tick b && is_tick d then remove_ticks r
    else String a (remove_ticks (String b (String d r))).
Proof. reflexivity. Qed.

Lemma remove_ticks_notick (a : ascii) (t : string) :
  is_tick a = false -> remove_ticks (String a t) = String a (remove_ticks t).
Proof. intros H. destruct t as [|b [|d r]]; try reflexivity. by rewrite remove_ticks_cons3, H. Qed.

Lemma remove_ticks_second (a c : ascii) (y : string) :
  is_tick c = false -> remove_ticks (String a (String c y)) = String a (remove_ticks (String c y)).
Proof. intros H. destruct y as [|d r]; try reflexivity. by rewrite remove_ticks_cons3, H, andb_false_r. Qed.

Lemma remove_ticks_split (x : string) (c : ascii) (y : string) :
  is_tick c = false ->
  remove_ticks (x +:+ String c y) = remove_ticks x +:+ String c (remove_ticks y).
Proof.
  intros Hc. remember (String.length x) as n eqn:En.
  revert x En. induction n as [n IH] using lt_wf_ind. intros x En.
  destruct x as [|a [|b [|d x']]]; cbn [append].
  - by apply remove_ticks_notick.
  - rewrite remove_ticks_second by done. by rewrite remove_ticks_notick.
  - rewrite remove_ticks_cons3, Hc, andb_false_r.
    rewrite remove_ticks_second by done. by rewrite remove_ticks_notick.
  - rewrite !remove_ticks_cons3.
    destruct (is_tick a && is_tick b && is_tick d).
    + apply (IH (String.length x')); [cbn in En; lia|done].
    + cbn [append]. f_equal.
      exact (IH (String.length (String b (String d x'))) ltac:(cbn in En |- *; lia)
               (String b (String d x')) eq_refl).
Qed.

Lemma remove_ticks_has_char (p : ascii -> bool) (x : string) :
  has_char p x = false -> has_char p (remove_ticks x) = false.
Proof.
  remember (String.length x) as n eqn:En.
  revert x En. induction n as [n IH] using lt_wf_ind. intros x En Hx.
  destruct x as [|a [|b [|d x']]]; try exact Hx.
  rewrite remove_ticks_cons3.
  cbn [has_char] in Hx. apply orb_false_iff in Hx as [Ha Hx].
  destruct (is_tick a && is_tick b && is_tick d).
  - apply orb_false_iff in Hx as [_ Hx]. apply orb_false_iff in Hx as [_ Hx].
    apply (IH (String.length x')); [cbn in En; lia|done|done].
  - cbn [has_char]. rewrite Ha. apply (IH (String.length (String b (String d x')))); [cbn in En |- *; lia|done|done].
Qed.

(** [lstrip], [rstrip], [strip]. *)
Lemma lstrip_app_nonspace (x y : string) :
  has_char (fun d => negb (is_space d)) x = true -> lstrip (x +:+ y) = lstrip x +:+ y.
Proof.
  induction x as [|c x IH]; cbn [append has_char lstrip]; intros H; [discriminate|].
  destruct (is_space c) eqn:Hc; cbn in H; [by apply IH|done].
Qed.

Lemma rstrip_nonspace_last (x : string) (c : ascii) :
  is_space c = false -> rstrip (x +:+ String c EmptyString) = x +:+ String c EmptyString.
Proof.
  intros Hc. induction x as [|a x IH]; cbn [append rstrip].
  - by rewrite Hc.
  - rewrite IH. by destruct x.
Qed.

Lemma lstrip_shape (s : string) :
  lstrip s = EmptyString \/ exists c t, lstrip s = String c t /\ is_space c = false.
Proof.
  induction s as [|c s IH]; cbn [lstrip]; [by left|].
  destruct (is_space c) eqn:Hc; [done|]. right. by exists c, s.
Qed.

Lemma lstrip_nonspace (c : ascii) (t : string) :
  is_space c = false -> lstrip (String c t) = String c t.
Proof. intros H. cbn [lstrip]. by rewrite H. Qed.

Lemma lstrip_idem (s : string) : lstrip (lstrip s) = lstrip s.
Proof.
  destruct (lstrip_shape s) as [->|(c & t & -> & Hc)]; [done|]. by apply lstrip_nonspace.
Qed.

Lemma rstrip_cons (c : ascii) (t : string) :
  rstrip (String c t)
  = match rstrip t with
    | EmptyString => if is_space c then EmptyString else String c EmptyString
    | t' => String c t'
    end.
Proof. reflexivity. Qed.

Lemma rstrip_idem (s : string) : rstrip (rstrip s) = rstrip s.
Proof.
  induction s as [|c s IH]; [done|]. rewrite rstrip_cons.
  destruct (rstrip s) as [|a t] eqn:E.
  - destruct (is_space c) eqn:Hc; [done|]. rewrite rstrip_cons. cbn [rstrip]. by rewrite Hc.
  - rewrite rstrip_cons, IH. done.
Qed.

Lemma rstrip_cons_nonspace (c : ascii) (t : string) :
  is_space c = false -> rstrip (String c t) = String c (rstrip t).
Proof. intros H. cbn [rstrip]. destruct (rstrip t); [by rewrite H|done]. Qed.

Lemma strip_idem (s : string) : strip (strip s) = strip s.
Proof.
  unfold strip. destruct (lstrip_shape s) as [->|(c & t & -> & Hc)]; [done|].
  rewrite rstrip_cons_nonspace by done. rewrite lstrip_nonspace by done.
  rewrite rstrip_cons_nonspace by done. by rewrite rstrip_idem.
Qed.

Lemma strip_lstrip (s : string) : strip (lstrip s) = strip s.
Proof. unfold strip. by rewrite lstrip_idem. Qed.

Lemma lstrip_has_char (p : ascii -> bool) (s : string) :
  has_char p s = false -> has_char p (lstrip s) = false.
Proof.
  induction s as [|c s IH]; cbn [lstrip has_char]; intros H; [done|].
  apply orb_false_iff in H as [Hc Hs].
  destruct (is_space c); [by apply IH|]. cbn [has_char]. by rewrite Hc, Hs.
Qed.

Lemma rstrip_has_char (p : ascii -> bool) (s : string) :
  has_char p s = false -> has_char p (rstrip s) = false.
Proof.
  induction s as [|c s IH]; cbn [rstrip has_char]; intros H; [done|].
  apply orb_false_iff in H as [Hc Hs]. specialize (IH Hs).
  destruct (rstrip s) as [|a t]; [destruct (is_space c)|]; cbn [has_char] in *;
    rewrite ?Hc, ?IH; done.
Qed.

Lemma strip_has_char (p : ascii -> bool) (s : string) :
  has_char p s = false -> has_char p (strip s) = false.
Proof. intros H. by apply rstrip_has_char, lstrip_has_char. Qed.

Lemma lstrip_last (p : string) (c : ascii) (y : string) :
  is_space c = false -> exists q, lstrip (p +:+ String c y) = q +:+ String c y.
Proof.
  intros Hc. induction p as [|a p IH]; cbn [append lstrip].
  - exists EmptyString. by rewrite Hc.
  - destruct (is_space a); [done|]. by exists (String a p).
Qed.

Lemma strip_semicolon (p : string) :
  exists q, strip (p +:+ String ";" EmptyString) = q +:+ String ";" EmptyString.
Proof.
  destruct (lstrip_last p ";" EmptyString (proj2 (proj2 (proj2 semi_chars)))) as [q Hq].
  exists q. unfold strip. rewrite Hq. apply rstrip_nonspace_last, semi_chars.
Qed.

Lemma strip_semicolon_nonempty (p : string) :
  is_empty (strip (p +:+ String ";" EmptyString)) = false.
Proof. destruct (strip_semicolon p) as [q ->]. by destruct q. Qed.

(** [split_nl]. *)
Lemma split_nl_line (x y : string) :
  has_char is_nl x = false -> split_nl (x +:+ String nl y) = x :: split_nl y.
Proof.
  induction x as [|c x IH]; cbn [append has_char split_nl]; intros H.
  - by rewrite (proj1 nl_chars).
  - apply orb_false_iff in H as [Hc Hx]. rewrite Hc, IH by done. done.
Qed.

Lemma split_nl_single (x : string) :
  has_char is_nl x = false -> split_nl x = [x].
Proof.
  induction x as [|c x IH]; cbn [has_char split_nl]; intros H; [done|].
  apply orb_false_iff in H as [Hc Hx]. by rewrite Hc, IH.
Qed.

(** Whole pipeline on a fenced block. *)
Lemma split_nl_no_nl (s : string) :
  Forall (fun x => has_char is_nl x = false) (split_nl s).
Proof.
  induction s as [|c s IH]; cbn [split_nl]; [by repeat constructor|].
  destruct (is_nl c) eqn:Hc; [by constructor|].
  destruct (split_nl s) as [|h rest]; [by repeat constructor; cbn; rewrite Hc|].
  inversion IH as [|? ? Hh Hrest]; subst. constructor; [cbn [has_char]; by rewrite Hc|done].
Qed.

Lemma sub_open_plain (b : bool) (x : string) :
  has_char is_nl x = false -> has_char is_tick x = false -> sub_open b x = x.
Proof.
  revert b. induction x as [|c x IH]; intros b; cbn [has_char]; intros Hn Ht; [by destruct b|].
  apply orb_false_iff in Hn as [Hcn Hxn]. apply orb_false_iff in Ht as [Hct Hxt].
  destruct b.
  - rewrite sub_open_notick, Hcn by done. f_equal. by apply IH.
  - cbn [sub_open andb]. rewrite Hcn. f_equal. by apply IH.
Qed.

Lemma remove_ticks_plain (x : string) :
  has_char is_tick x = false -> remove_ticks x = x.
Proof.
  induction x as [|c x IH]; cbn [has_char]; intros H; [done|].
  apply orb_false_iff in H as [Hc Hx]. rewrite remove_ticks_notick by done. by rewrite IH.
Qed.

Lemma has_char_semicolon_line (p : ascii -> bool) (l : string) :
  semicolon_line l -> p ";"%char = true -> has_char p l = true.
Proof.
  intros [_ Hl] Hp. destruct (last_char_split _ _ Hl) as [q ->].
  rewrite has_char_app. cbn. by rewrite Hp, orb_true_r.
Qed.

Lemma fenced_pipeline (tag l1 l2 l3 : string) :
  word_tag tag -> semicolon_line l1 -> semicolon_line l2 -> semicolon_line l3 ->
  split_clean ("```" +:+ tag +:+
                 String nl (l1 +:+ String nl (l2 +:+ String nl (l3 +:+ String nl "```"))))
  = [strip (remove_ticks l1); strip (remove_ticks l2); strip (remove_ticks l3)].
Proof.
  intros Ht H1 H2 H3.
  unfold split_clean, strip_markdown_and_clean.
  rewrite sub_open_fence by done.
  rewrite !sub_open_line by done.
  replace (sub_open true "```") with "```" by reflexivity.
  rewrite sub_close_noline by apply H1.
  rewrite !sub_close_nl_line by done.
  replace (sub_close (String nl "```")) with EmptyString by reflexivity.
  rewrite app_empty_r.
  pose proof (proj1 (proj2 nl_chars)) as Hnt.
  rewrite !remove_ticks_split by done.
  destruct H1 as [Hn1 Hl1], H2 as [Hn2 Hl2], H3 as [Hn3 Hl3].
  destruct (last_char_split _ _ Hl1) as [p1 E1].
  destruct (last_char_split _ _ Hl2) as [p2 E2].
  destruct (last_char_split _ _ Hl3) as [p3 E3].
  pose proof (proj1 (proj2 semi_chars)) as Hst.
  assert (R1 : remove_ticks l1 = remove_ticks p1 +:+ String ";" EmptyString)
    by (rewrite E1, remove_ticks_split by done; done).
  assert (R2 : remove_ticks l2 = remove_ticks p2 +:+ String ";" EmptyString)
    by (rewrite E2, remove_ticks_split by done; done).
  assert (R3 : remove_ticks l3 = remove_ticks p3 +:+ String ";" EmptyString)
    by (rewrite E3, remove_ticks_split by done; done).
  pose proof (remove_ticks_has_char _ _ Hn1) as N1.
  pose proof (remove_ticks_has_char _ _ Hn2) as N2.
  pose proof (remove_ticks_has_char _ _ Hn3) as N3.
  set (A := remove_ticks l1) in *. set (B := remove_ticks l2) in *.
  set (C := remove_ticks l3) in *.
  assert (SA : has_char (fun d => negb (is_space d)) A = true).
  { rewrite R1, has_char_app. cbn. by rewrite (proj2 (proj2 (proj2 semi_chars))), orb_true_r. }
  assert (S : strip (A +:+ String nl (B +:+ String nl C))
              = lstrip A +:+ String nl (B +:+ String nl C)).
  { unfold strip. rewrite lstrip_app_nonspace by done. rewrite R3.
    replace (lstrip A +:+ String nl (B +:+ String nl (remove_ticks p3 +:+ String ";" EmptyString)))
      with ((lstrip A +:+ String nl (B +:+ String nl (remove_ticks p3))) +:+ String ";" EmptyString)
      by (rewrite app_assoc_str; cbn [append]; rewrite app_assoc_str; done).
    rewrite rstrip_nonspace_last by apply semi_chars.
    rewrite app_assoc_str; cbn [append]; rewrite app_assoc_str; done. }
  rewrite S.
  rewrite split_nl_line by (by apply lstrip_has_char).
  rewrite split_nl_line by done.
  rewrite split_nl_single by done.
  cbn [List.filter map]. rewrite strip_lstrip.
  rewrite R1, R2, R3, !strip_semicolon_nonempty. cbn [negb List.filter List.map]. by rewrite strip_lstrip.
Qed.

Lemma split_clean_lines (text : string) :
  Forall (fun s => is_empty s = false /\ has_char is_nl s = false /\ strip s = s)
         (split_clean text).
Proof.
  apply List.Forall_forall. intros s Hs. unfold split_clean in Hs.
  apply in_map_iff in Hs as [x [<- Hx]]. apply List.filter_In in Hx as [Hin Hne].
  split; [by destruct (is_empty (strip x))|]. split; [|apply strip_idem].
  apply strip_has_char.
  exact (proj1 (List.Forall_forall _ _) (split_nl_no_nl _) x Hin).
Qed.

(** C7: for a fenced block whose opening fence carries a tag of word characters
    (possibly empty) and which wraps three single-line, semicolon-terminated
    lines, [_split_clean] returns exactly three statements, in input order:
    each line with its [```] runs removed and trimmed; each is non-empty and
    already trimmed. *)
Lemma fenced_block_three_statements (tag l1 l2 l3 : string) :
  word_tag tag -> semicolon_line l1 -> semicolon_line l2 -> semicolon_line l3 ->
  split_clean ("```" +:+ tag +:+
                 String nl (l1 +:+ String nl (l2 +:+ String nl (l3 +:+ String nl "```"))))
  = [strip (remove_ticks l1); strip (remove_ticks l2); strip (remove_ticks l3)]
  /\ Forall (fun s => is_empty s = false /\ strip s = s)
            [strip (remove_ticks l1); strip (remove_ticks l2); strip (remove_ticks l3)].
Proof.
  intros Ht H1 H2 H3. split; [by apply fenced_pipeline|].
  rewrite <- (fenced_pipeline tag l1 l2 l3) by done.
  eapply Forall_impl; [apply split_clean_lines|]. intros s (? & _ & ?). done.
Qed.

Lemma fenced_block_three_statements_witness :
  split_clean ("```" +:+ "sql" +:+
                 String nl ("A;" +:+ String nl ("B;" +:+ String nl ("C;" +:+ String nl "```"))))
  = ["A;"; "B;"; "C;"].
Proof.
  refine (eq_trans (proj1 (fenced_block_three_statements "sql" "A;" "B;" "C;" _ _ _ _)) _);
    try split; reflexivity.
Defined.

Lemma fenced_nonword_tag_four_lines :
  split_clean ("```" +:+ "t-sql" +:+
                 String nl ("A;" +:+ String nl ("B;" +:+ String nl ("C;" +:+ String nl "```"))))
  = ["t-sql"; "A;"; "B;"; "C;"].
Proof. vm_compute. reflexivity. Qed.

Lemma comment_lines_kept :
  split_clean ("-- note" +:+ String nl "SELECT 1; /* c */") = ["-- note"; "SELECT 1; /* c */"].
Proof. vm_compute. reflexivity. Qed.

(** C8: every statement [_split_clean] returns is non-empty, single-line and
    trimmed (fences removed, split on newlines, trimmed, empty lines dropped),
    but SQL comments are not removed: a non-empty, trimmed, single-line text
    without backticks, such as a comment [-- note], is returned unchanged as
    a statement of its own. *)
Lemma split_clean_trims_but_keeps_comments (text l : string) :
  Forall (fun s => is_empty s = false /\ has_char is_nl s = false /\ strip s = s)
         (split_clean text)
  /\ (has_char is_nl l = false -> has_char is_tick l = false -> is_empty l = false ->
      strip l = l -> split_clean l = [l]).
Proof.
  split; [apply split_clean_lines|]. intros Hn Ht He Hs.
  unfold split_clean, strip_markdown_and_clean.
  rewrite sub_open_plain by done.
  rewrite <- (app_empty_r l) at 1. rewrite sub_close_noline by done.
  replace (sub_close EmptyString) with EmptyString by reflexivity. rewrite app_empty_r.
  rewrite remove_ticks_plain, Hs, split_nl_single by done.
  cbn [List.filter List.map]. rewrite Hs, He. cbn [negb List.map]. by rewrite Hs.
Qed.

Lemma split_clean_keeps_comment_witness :
  split_clean "-- note" = ["-- note"].
Proof.
  apply (proj2 (split_clean_trims_but_keeps_comments EmptyString "-- note")); reflexivity.
Defined.

End SanitizerFacts.

(* ================================================================= *)
(** * Output sanitizer: fences, idempotence, round trip *)
(* ================================================================= *)

Module SanitizerOutputFacts.
Import Sanitizer SanitizerFacts.
Local Arguments is_nl : simpl never.
Local Arguments is_tick : simpl never.
Local Arguments is_word : simpl never.
Local Arguments is_space : simpl never.
Local Arguments String.append : simpl nomatch.

Lemma has_fence_cons3 (a b c : ascii) (r : string) :
  has_fence (String a (String b (String c r)))
  = (is_tick a && is_tick b && is_tick c) || has_fence (String b (String c r)).
Proof. reflexivity. Qed.

Lemma has_fence_short1 (a : ascii) : has_fence (String a EmptyString) = false.
Proof. reflexivity. Qed.

Lemma has_fence_short2 (a b : ascii) : has_fence (String a (String b EmptyString)) = false.
Proof. reflexivity. Qed.

Lemma has_fence_tail (a : ascii) (t : string) :
  has_fence (String a t) = false -> has_fence t = false.
Proof. cbn [has_fence]. intros H. apply orb_false_iff in H. apply H. Qed.

Lemma has_fence_notick1 (a : ascii) (t : string) :
  is_tick a = false -> has_fence (String a t) = has_fence t.
Proof.
  intros Ha. destruct t as [|b [|c r]]; try reflexivity.
  by rewrite has_fence_cons3, Ha.
Qed.

Lemma has_fence_notick2 (a b : ascii) (t : string) :
  is_tick b = false -> has_fence (String a (String b t)) = has_fence (String b t).
Proof.
  intros Hb. destruct t as [|c r]; try reflexivity.
  by rewrite has_fence_cons3, Hb, andb_false_r.
Qed.

Lemma remove_ticks_no_fence (s : string) : has_fence (remove_ticks s) = false.
Proof.
  remember (String.length s) as n eqn:En. revert s En.
  induction n as [n IH] using lt_wf_ind. intros s En.
  destruct s as [|a [|b [|d r]]]; try reflexivity.
  rewrite remove_ticks_cons3.
  destruct (is_tick a && is_tick b && is_tick d) eqn:Et.
  - apply (IH (String.length r)); [cbn in En; lia|done].
  - assert (Hx : has_fence (remove_ticks (String b (String d r))) = false)
      by (apply (IH (String.length (String b (String d r)))); [cbn in En |- *; lia|done]).
    destruct (is_tick a) eqn:Ea.
    + destruct (is_tick b) eqn:Eb.
      * assert (Ed : is_tick d = false) by (by destruct (is_tick d)).
        rewrite remove_ticks_second by done. rewrite remove_ticks_notick by done.
        rewrite remove_ticks_second, remove_ticks_notick in Hx by done.
        rewrite has_fence_cons3, Ea, Eb, Ed. done.
      * rewrite remove_ticks_notick by done. rewrite remove_ticks_notick in Hx by done.
        by rewrite has_fence_notick2.
    + by rewrite has_fence_notick1.
Qed.

Lemma remove_ticks_fence_free (s : string) : has_fence s = false -> remove_ticks s = s.
Proof.
  induction s as [|a t IH]; intros H; [done|].
  pose proof (has_fence_tail _ _ H) as Ht.
  destruct t as [|b [|d r]]; try reflexivity.
  rewrite has_fence_cons3 in H. apply orb_false_iff in H as [H3 _].
  rewrite remove_ticks_cons3, H3. by rewrite IH.
Qed.

Lemma sub_open_fence_free (b : bool) (s : string) : has_fence s = false -> sub_open b s = s.
Proof.
  revert b. induction s as [|c t IH]; intros b H; [by destruct b|].
  pose proof (has_fence_tail _ _ H) as Ht.
  destruct (b && is_tick c) eqn:Ebc.
  - apply andb_true_iff in Ebc as [-> Ec].
    destruct t as [|c2 [|c3 r]].
    + simpl. rewrite Ec. reflexivity.
    + simpl. rewrite Ec. reflexivity.
    + rewrite has_fence_cons3, Ec in H. apply orb_false_iff in H as [H3 _].
      rewrite sub_open_tick by done. cbn [andb] in H3. rewrite H3. f_equal. by apply IH.
  - cbn [sub_open]. rewrite Ebc. f_equal. by apply IH.
Qed.

Lemma sub_close_fence_free (s : string) : has_fence s = false -> sub_close s = s.
Proof.
  induction s as [|c t IH]; intros H; [done|].
  pose proof (has_fence_tail _ _ H) as Ht.
  rewrite sub_close_cons_nomatch.
  - f_equal. by apply IH.
  - intros c1 c2 c3 r ->. rewrite has_fence_cons3 in Ht.
    apply orb_false_iff in Ht as [H3 _]. rewrite <- !andb_assoc.
    rewrite (andb_assoc (is_tick c1)), (andb_assoc (is_tick c1 && is_tick c2)), H3.
    by rewrite !andb_false_r.
Qed.

(** Substrings. *)
Lemma has_fence_app_l (x y : string) : has_fence (x +:+ y) = false -> has_fence x = false.
Proof.
  induction x as [|a x IH]; intros H; [done|]. cbn [append] in H.
  pose proof (IH (has_fence_tail _ _ H)) as Hx.
  destruct x as [|b [|c r]]; try reflexivity.
  cbn [append] in H. rewrite has_fence_cons3 in H |- *.
  apply orb_false_iff in H as [H3 _]. by rewrite H3, Hx.
Qed.

Lemma has_fence_app_r (x y : string) : has_fence (x +:+ y) = false -> has_fence y = false.
Proof.
  induction x as [|a x IH]; intros H; [done|]. apply IH. exact (has_fence_tail _ _ H).
Qed.

Lemma lstrip_suffix (s : string) : exists p, s = p +:+ lstrip s.
Proof.
  induction s as [|c s [p Hp]]; cbn [lstrip]; [by exists EmptyString|].
  destruct (is_space c).
  - exists (String c p). cbn [append]. by rewrite <- Hp.
  - by exists EmptyString.
Qed.

Lemma rstrip_prefix (s : string) : exists q, s = rstrip s +:+ q.
Proof.
  induction s as [|c s [q Hq]]; [by exists EmptyString|]. rewrite rstrip_cons.
  destruct (rstrip s) as [|a t] eqn:E.
  - destruct (is_space c).
    + exists (String c s). done.
    + exists s. done.
  - exists q. cbn [append]. by rewrite Hq at 1.
Qed.

Lemma strip_substring (s : string) : exists p q, s = p +:+ strip s +:+ q.
Proof.
  destruct (lstrip_suffix s) as [p Hp]. destruct (rstrip_prefix (lstrip s)) as [q Hq].
  exists p, q. unfold strip. by rewrite <- Hq.
Qed.

Lemma has_fence_sub (p x q : string) : has_fence (p +:+ x +:+ q) = false -> has_fence x = false.
Proof. intros H. apply has_fence_app_r in H. by apply has_fence_app_l in H. Qed.

Lemma strip_fence_free (s : string) : has_fence s = false -> has_fence (strip s) = false.
Proof.
  intros H. destruct (strip_substring s) as (p & q & E). rewrite E in H.
  by apply has_fence_sub in H.
Qed.

Lemma split_nl_prefix (t h : string) (rest : list string) :
  split_nl t = h :: rest -> exists q, t = h +:+ q.
Proof.
  revert h rest. induction t as [|c t IH]; intros h rest; cbn [split_nl].
  - intros [= <- _]. by exists EmptyString.
  - destruct (is_nl c).
    + intros [= <- _]. by exists (String c t).
    + destruct (split_nl t) as [|h' rest'] eqn:E.
      * intros [= <- _]. by exists t.
      * intros [= <- _]. destruct (IH h' rest' eq_refl) as [q Hq].
        exists q. cbn [append]. by rewrite <- Hq.
Qed.

Lemma split_nl_substring (s x : string) :
  In x (split_nl s) -> exists p q, s = p +:+ x +:+ q.
Proof.
  revert x. induction s as [|c t IH]; intros x; cbn [split_nl].
  - intros [<-|[]]. by exists EmptyString, EmptyString.
  - destruct (is_nl c).
    + intros [<-|Hin].
      * by exists EmptyString, (String c t).
      * destruct (IH x Hin) as (p & q & E). exists (String c p), q.
        cbn [append]. by rewrite <- E.
    + destruct (split_nl t) as [|h rest] eqn:E.
      * intros [<-|[]]. by exists EmptyString, t.
      * intros [<-|Hin].
        -- destruct (split_nl_prefix t h rest E) as [q Hq].
           exists EmptyString, q. cbn [append]. by rewrite <- Hq.
        -- destruct (IH x (or_intror Hin)) as (p & q & E'). exists (String c p), q.
           cbn [append]. by rewrite <- E'.
Qed.

Lemma split_clean_fence_free_lines (text : string) :
  has_fence (strip_markdown_and_clean text) = false ->
  Forall (fun l => has_fence l = false) (split_clean text).
Proof.
  intros H. apply List.Forall_forall. intros s Hs. unfold split_clean in Hs.
  apply in_map_iff in Hs as [x [<- Hx]]. apply List.filter_In in Hx as [Hin _].
  apply strip_fence_free. destruct (split_nl_substring _ _ Hin) as (p & q & E).
  rewrite E in H. by apply has_fence_sub in H.
Qed.

Lemma strip_markdown_and_clean_fence_free (text : string) :
  has_fence (strip_markdown_and_clean text) = false.
Proof. unfold strip_markdown_and_clean. apply strip_fence_free, remove_ticks_no_fence. Qed.

(** [_strip_markdown_and_clean] never returns text with three consecutive
    backticks, and no line of [_split_clean] contains them. *)
Theorem sanitizer_output_has_no_fence (text : string) :
  has_fence (strip_markdown_and_clean text) = false /\
  Forall (fun l => has_fence l = false) (split_clean text).
Proof.
  split; [apply strip_markdown_and_clean_fence_free|].
  apply split_clean_fence_free_lines, strip_markdown_and_clean_fence_free.
Qed.

Lemma clean_fence_free (s : string) :
  has_fence s = false -> strip_markdown_and_clean s = strip s.
Proof.
  intros H. unfold strip_markdown_and_clean.
  rewrite sub_open_fence_free, sub_close_fence_free, remove_ticks_fence_free by done.
  done.
Qed.

(** Cleaning an already cleaned text changes nothing. *)
Theorem strip_markdown_and_clean_idempotent (text : string) :
  strip_markdown_and_clean (strip_markdown_and_clean text) = strip_markdown_and_clean text.
Proof.
  rewrite clean_fence_free by apply strip_markdown_and_clean_fence_free.
  unfold strip_markdown_and_clean. apply strip_idem.
Qed.

(** Joining lines. *)
Lemma has_fence_join_char (x : string) (c : ascii) (y : string) :
  has_fence x = false -> has_fence y = false -> is_tick c = false ->
  has_fence (x +:+ String c y) = false.
Proof.
  intros Hx Hy Hc. induction x as [|a x IH]; cbn [append].
  - by rewrite has_fence_notick1.
  - pose proof (IH (has_fence_tail _ _ Hx)) as Ht.
    destruct x as [|b [|d r]]; cbn [append] in *.
    + by rewrite has_fence_notick2.
    + rewrite has_fence_cons3, Hc, andb_false_r. exact Ht.
    + rewrite has_fence_cons3 in Hx |- *. apply orb_false_iff in Hx as [H3 _].
      by rewrite H3.
Qed.

Lemma join_nl_fence_free (L : list string) :
  Forall (fun l => has_fence l = false) L -> has_fence (join_nl L) = false.
Proof.
  induction L as [|x [|y L] IH]; intros HF; [done| |].
  - by inversion HF.
  - inversion HF as [|? ? Hx HF']; subst.
    change (join_nl (x :: y :: L)) with (x +:+ String nl (join_nl (y :: L))).
    apply has_fence_join_char; [done| |apply nl_chars]. by apply IH.
Qed.

Lemma join_nl_no_nl_split (L : list string) :
  Forall (fun l => has_char is_nl l = false) L -> L <> [] -> split_nl (join_nl L) = L.
Proof.
  induction L as [|x [|y L] IH]; intros HF Hne; [done| |].
  - inversion HF; subst. by apply split_nl_single.
  - inversion HF as [|? ? Hx HF']; subst.
    change (join_nl (x :: y :: L)) with (x +:+ String nl (join_nl (y :: L))).
    rewrite split_nl_line by done. f_equal. by apply IH.
Qed.

Lemma str_length_app (x y : string) :
  String.length (x +:+ y) = String.length x + String.length y.
Proof. induction x as [|a x IH]; cbn [append String.length]; lia. Qed.

Lemma lstrip_fixed (l : string) : strip l = l -> lstrip l = l.
Proof.
  unfold strip. intros H.
  destruct (lstrip_suffix l) as [p Hp]. destruct (rstrip_prefix (lstrip l)) as [q Hq].
  rewrite H in Hq. rewrite Hq in Hp.
  assert (Hl : String.length p = 0).
  { apply (f_equal String.length) in Hp. rewrite !str_length_app in Hp. lia. }
  destruct p; [|discriminate]. cbn [append] in Hp.
  assert (Hq0 : String.length q = 0).
  { apply (f_equal String.length) in Hp. rewrite !str_length_app in Hp. lia. }
  destruct q; [|discriminate]. by rewrite app_empty_r in Hq.
Qed.

Lemma rstrip_fixed (l : string) : strip l = l -> rstrip l = l.
Proof. intros H. pose proof (lstrip_fixed l H) as E. unfold strip in H. by rewrite E in H. Qed.

Lemma lstrip_all_space (l : string) :
  has_char (fun d => negb (is_space d)) l = false -> lstrip l = EmptyString.
Proof.
  induction l as [|c l IH]; cbn [has_char lstrip]; intros H; [done|].
  apply orb_false_iff in H as [Hc Hl]. apply negb_false_iff in Hc. rewrite Hc. by apply IH.
Qed.

Lemma fixed_nonspace (l : string) :
  strip l = l -> is_empty l = false -> has_char (fun d => negb (is_space d)) l = true.
Proof.
  intros Hs He. destruct (has_char _ l) eqn:E; [done|].
  pose proof (lstrip_fixed l Hs) as Hl. rewrite lstrip_all_space in Hl by done.
  by rewrite <- Hl in He.
Qed.

Lemma rstrip_nonempty (y : string) :
  has_char (fun d => negb (is_space d)) y = true -> rstrip y <> EmptyString.
Proof.
  induction y as [|c y IH]; cbn [has_char]; intros H; [discriminate|].
  rewrite rstrip_cons. destruct (rstrip y) as [|a t] eqn:E; [|discriminate].
  destruct (is_space c) eqn:Hc; [|discriminate].
  cbn in H. by apply IH in H.
Qed.

Lemma rstrip_app_nonspace (x y : string) :
  has_char (fun d => negb (is_space d)) y = true -> rstrip (x +:+ y) = x +:+ rstrip y.
Proof.
  intros Hy. induction x as [|a x IH]; [done|]. cbn [append]. rewrite rstrip_cons, IH.
  destruct (x +:+ rstrip y) eqn:E; [|done].
  destruct x; [|discriminate]. cbn [append] in E. by apply rstrip_nonempty in E.
Qed.

Lemma join_nl_head (x : string) (L : list string) :
  exists r, join_nl (x :: L) = x +:+ r.
Proof.
  destruct L as [|y L].
  - exists EmptyString. by rewrite app_empty_r.
  - by exists (String nl (join_nl (y :: L))).
Qed.

Lemma rstrip_join (L : list string) :
  Forall good_line L -> rstrip (join_nl L) = join_nl L.
Proof.
  induction L as [|x [|y L] IH]; intros HF; [done| |].
  - inversion HF as [|? ? (_ & _ & Hs) _]; subst. by apply rstrip_fixed.
  - inversion HF as [|? ? Hx HF']; subst.
    change (join_nl (x :: y :: L)) with (x +:+ String nl (join_nl (y :: L))).
    inversion HF' as [|? ? (Hye & _ & Hys) _]; subst.
    destruct (join_nl_head y L) as [r Hr].
    assert (HN : has_char (fun d => negb (is_space d)) (join_nl (y :: L)) = true).
    { rewrite Hr, has_char_app. by rewrite fixed_nonspace. }
    rewrite rstrip_app_nonspace.
    + f_equal. rewrite rstrip_cons, IH by done.
      destruct (join_nl (y :: L)) eqn:E; [discriminate|done].
    + cbn [has_char]. rewrite HN. apply orb_true_r.
Qed.

Lemma strip_join (L : list string) :
  Forall good_line L -> strip (join_nl L) = join_nl L.
Proof.
  intros HF. destruct L as [|x L']; [reflexivity|].
  pose proof HF as HF0. inversion HF0 as [|? ? (Hxe & _ & Hxs) _]; subst.
  unfold strip. destruct (join_nl_head x L') as [r Hr]. rewrite Hr at 1.
  rewrite lstrip_app_nonspace by (by apply fixed_nonspace).
  rewrite lstrip_fixed by done. rewrite <- Hr. by apply rstrip_join.
Qed.

Lemma filter_map_good (L : list string) :
  Forall good_line L ->
  map strip (List.filter (fun line => negb (is_empty (strip line))) L) = L.
Proof.
  induction L as [|x L IH]; intros HF; [done|].
  inversion HF as [|? ? (Hxe & _ & Hxs) HF']; subst.
  cbn [List.filter]. rewrite Hxs, Hxe. cbn [negb List.map]. rewrite Hxs. f_equal. by apply IH.
Qed.

Lemma split_clean_join (L : list string) :
  Forall good_line L -> Forall (fun l => has_fence l = false) L ->
  split_clean (join_nl L) = L.
Proof.
  intros HG HF. unfold split_clean.
  rewrite clean_fence_free by (by apply join_nl_fence_free).
  rewrite strip_join by done.
  destruct L as [|x L']; [reflexivity|].
  rewrite join_nl_no_nl_split; [by apply filter_map_good| |done].
  eapply Forall_impl; [exact HG|]. intros l (_ & ? & _). done.
Qed.

(** Joining the statements of [_split_clean] with newlines and splitting the
    result again gives back the same statements. *)
Theorem split_clean_join_roundtrip (text : string) :
  split_clean (join_nl (split_clean text)) = split_clean text.
Proof.
  apply split_clean_join.
  - eapply Forall_impl; [apply split_clean_lines|]. intros l (? & ? & ?). done.
  - apply split_clean_fence_free_lines, strip_markdown_and_clean_fence_free.
Qed.

(** Empty output. *)
Lemma lstrip_nonspace_same (y : string) :
  has_char (fun d => negb (is_space d)) (lstrip y) = has_char (fun d => negb (is_space d)) y.
Proof.
  induction y as [|c y IH]; [done|]. cbn [lstrip has_char].
  destruct (is_space c) eqn:Ec; cbn [has_char]; rewrite ?Ec; cbn; [exact IH|done].
Qed.

Lemma rstrip_nonspace_same (y : string) :
  has_char (fun d => negb (is_space d)) (rstrip y) = has_char (fun d => negb (is_space d)) y.
Proof.
  induction y as [|c y IH]; [done|]. rewrite rstrip_cons. cbn [has_char].
  destruct (rstrip y) as [|a t] eqn:E.
  - cbn in IH. rewrite <- IH.
    destruct (is_space c) eqn:Ec; cbn [has_char]; rewrite ?Ec; done.
  - rewrite <- IH. done.
Qed.

Lemma strip_nonspace_same (y : string) :
  has_char (fun d => negb (is_space d)) (strip y) = has_char (fun d => negb (is_space d)) y.
Proof. unfold strip. by rewrite rstrip_nonspace_same, lstrip_nonspace_same. Qed.

Lemma split_nl_has_char (p : ascii -> bool) (s : string) :
  p nl = false -> has_char p s = true ->
  exists x, In x (split_nl s) /\ has_char p x = true.
Proof.
  intros Hnl. induction s as [|c t IH]; cbn [has_char]; intros H; [discriminate|].
  cbn [split_nl]. destruct (is_nl c) eqn:Ec.
  - assert (Hp : p c = false).
    { unfold is_nl in Ec. destruct (Ascii.eqb_spec c nl) as [->|]; [done|discriminate]. }
    rewrite Hp in H. cbn in H. destruct (IH H) as (x & Hin & Hx). exists x. split; [by right|done].
  - destruct (p c) eqn:Hp.
    + destruct (split_nl t) as [|h rest].
      * exists (String c EmptyString). split; [by left|]. cbn. by rewrite Hp.
      * exists (String c h). split; [by left|]. cbn. by rewrite Hp.
    + cbn in H. destruct (IH H) as (x & Hin & Hx).
      destruct (split_nl t) as [|h rest]; [done|].
      destruct Hin as [Heq|Hin]; [subst h|].
      * exists (String c x). split; [by left|]. cbn. by rewrite Hx, orb_true_r.
      * exists x. split; [by right|done].
Qed.

(** [_split_clean] returns no statement exactly when
    [_strip_markdown_and_clean] returns the empty string. *)
Theorem split_clean_empty_iff (text : string) :
  split_clean text = [] <-> strip_markdown_and_clean text = EmptyString.
Proof.
  split.
  - intros H. destruct (strip_markdown_and_clean text) as [|c t] eqn:E; [done|exfalso].
    assert (HN : has_char (fun d => negb (is_space d)) (strip_markdown_and_clean text) = true).
    { unfold strip_markdown_and_clean in E |- *.
      destruct (has_char (fun d => negb (is_space d))
                  (strip (remove_ticks (sub_close (sub_open true text))))) eqn:Hc; [done|].
      rewrite strip_nonspace_same in Hc. unfold strip in E.
      rewrite lstrip_all_space in E by exact Hc.
      discriminate. }
    destruct (split_nl_has_char _ _ eq_refl HN) as (x & Hin & Hx).
    assert (Hk : In (strip x) (split_clean text)).
    { unfold split_clean. apply in_map. apply List.filter_In. split; [done|].
      rewrite <- strip_nonspace_same in Hx. by destruct (strip x). }
    rewrite H in Hk. destruct Hk.
  - intros H. unfold split_clean. rewrite H. reflexivity.
Qed.

End SanitizerOutputFacts.

(* ================================================================= *)
(** * [_clean_llm_output]: properties *)
(* ================================================================= *)

Module CleanerFacts.
Import Sanitizer SanitizerFacts SanitizerOutputFacts LlmOutputCleaner.
Local Arguments is_nl : simpl never.
Local Arguments is_tick : simpl never.
Local Arguments is_word : simpl never.
Local Arguments is_space : simpl never.
Local Arguments String.append : simpl nomatch.

Lemma space_char : is_space " " = true.
Proof. reflexivity. Qed.

Lemma sub_space_runs_other (b : bool) (s : string) :
  has_char other_space (sub_space_runs b s) = false.
Proof.
  revert b. induction s as [|c t IH]; intros b; [done|]. cbn [sub_space_runs].
  destruct (is_space c) eqn:Ec; [destruct b|]; cbn [has_char]; rewrite ?IH, ?orb_false_r.
  - done.
  - reflexivity.
  - unfold other_space. by rewrite Ec.
Qed.

Lemma sub_space_runs_pairs (b : bool) (s : string) :
  space_pair (sub_space_runs b s) = false /\
  (b = true -> starts_nonspace (sub_space_runs b s)).
Proof.
  revert b. induction s as [|c t IH]; intros b; [done|]. cbn [sub_space_runs].
  destruct (is_space c) eqn:Ec; [destruct b|].
  - apply IH.
  - split; [|discriminate]. destruct (IH true) as [Hp Hs].
    cbn [space_pair]. rewrite Hp, orb_false_r.
    specialize (Hs eq_refl). destruct (sub_space_runs true t); [done|].
    cbn in Hs. by rewrite Hs, andb_false_r.
  - destruct (IH false) as [Hp _]. split; [|intros _; exact Ec].
    cbn [space_pair]. rewrite Hp, orb_false_r.
    destruct (sub_space_runs false t); [done|]. by rewrite Ec.
Qed.

Lemma space_pair_tail (a : ascii) (t : string) :
  space_pair (String a t) = false -> space_pair t = false.
Proof. cbn [space_pair]. intros H. apply orb_false_iff in H. apply H. Qed.

Lemma space_pair_app_l (x y : string) : space_pair (x +:+ y) = false -> space_pair x = false.
Proof.
  induction x as [|a x IH]; intros H; [done|]. cbn [append] in H.
  pose proof (IH (space_pair_tail _ _ H)) as Hx.
  cbn [space_pair]. rewrite Hx, orb_false_r.
  destruct x as [|b r]; [done|]. cbn [append space_pair] in H.
  apply orb_false_iff in H as [H2 _]. exact H2.
Qed.

Lemma space_pair_app_r (x y : string) : space_pair (x +:+ y) = false -> space_pair y = false.
Proof.
  induction x as [|a x IH]; intros H; [done|]. apply IH. exact (space_pair_tail _ _ H).
Qed.

Lemma space_pair_strip (s : string) : space_pair s = false -> space_pair (strip s) = false.
Proof.
  intros H. destruct (strip_substring s) as (p & q & E). rewrite E in H.
  apply space_pair_app_r in H. by apply space_pair_app_l in H.
Qed.

Lemma rstrip_last (s : string) :
  rstrip s = EmptyString \/ exists c, last_char (rstrip s) = Some c /\ is_space c = false.
Proof.
  induction s as [|c s IH]; [by left|]. rewrite rstrip_cons.
  destruct (rstrip s) as [|a t] eqn:E.
  - destruct (is_space c) eqn:Ec; [by left|]. right. by exists c.
  - right. destruct IH as [|(d & Hd & Hs)]; [discriminate|]. exists d. done.
Qed.

Lemma strip_ends (s : string) :
  strip s = EmptyString \/
  (starts_nonspace (strip s) /\ exists c, last_char (strip s) = Some c /\ is_space c = false).
Proof.
  unfold strip. destruct (lstrip_shape s) as [->|(c & t & -> & Hc)]; [by left|].
  right. rewrite rstrip_cons_nonspace by done. split; [exact Hc|].
  destruct (rstrip_last (String c t)) as [E|H].
  - rewrite rstrip_cons_nonspace in E by done. discriminate.
  - by rewrite rstrip_cons_nonspace in H.
Qed.

Lemma space_pair_app_char (x : string) (c : ascii) :
  is_space c = false -> space_pair (x +:+ String c EmptyString) = space_pair x.
Proof.
  intros Hc. induction x as [|a x IH]; [done|]. cbn [append space_pair].
  rewrite IH. destruct x as [|b r]; cbn [append]; [|done].
  by rewrite Hc, andb_false_r.
Qed.

Lemma semi_space : is_space ";" = false.
Proof. reflexivity. Qed.


(** The output of [_clean_llm_output] holds no whitespace character other than
    a plain space, no two adjacent whitespace characters, and neither starts
    nor ends with whitespace. *)
Theorem clean_llm_output_single_spaced (text : string) :
  has_char other_space (clean_llm_output text) = false /\
  space_pair (clean_llm_output text) = false /\
  starts_nonspace (clean_llm_output text) /\
  (forall c, last_char (clean_llm_output text) = Some c -> is_space c = false).
Proof.
  unfold clean_llm_output.
  set (W := sub_space_runs false _).
  assert (H1 : has_char other_space (strip W) = false)
    by (apply strip_has_char, sub_space_runs_other).
  assert (H2 : space_pair (strip W) = false)
    by (apply space_pair_strip, sub_space_runs_pairs).
  set (S := strip W) in *.
  unfold ensure_semicolon.
  destruct (strip_ends W) as [E|(Hs & d & Hd & Hds)].
  { fold S in E. rewrite E. cbn. repeat split; done. }
  fold S in Hs, Hd.
  destruct (is_empty S) eqn:He.
  { destruct S; [|discriminate]. repeat split; done. }
  assert (Happ : has_char other_space (S +:+ ";") = false /\
                 space_pair (S +:+ ";") = false /\ starts_nonspace (S +:+ ";") /\
                 (forall c, last_char (S +:+ ";") = Some c -> is_space c = false)).
  { split; [rewrite has_char_app, H1; reflexivity|].
    split; [rewrite space_pair_app_char by exact semi_space; exact H2|].
    split; [destruct S; [discriminate|exact Hs]|].
    intros c Hc. rewrite last_char_app in Hc. injection Hc as <-. exact semi_space. }
  rewrite Hd. destruct (Ascii.eqb d ";"); [|exact Happ].
  repeat split; try done. intros c Hc. rewrite Hd in Hc. by injection Hc as <-.
Qed.

End CleanerFacts.

(* ================================================================= *)
(** * From the request to the pipeline output *)
(* ================================================================= *)

Module RequestFacts.
Import Workload WorkloadFacts Pipeline PipelineFacts.

(** A request with two queries, used by the instances below. *)
Local Notation sample_request :=
  (Request.mkDatabaseMetadata "postgres://db"
     [Request.mkDDLStatement "CREATE TABLE t (a int, b int);"]
     [Request.mkQueryDetails "q1" "SELECT a FROM t" 2 5;
      Request.mkQueryDetails "q2" "SELECT b FROM t" 10 3]).

Lemma query_dict_well_typed (q : Request.QueryDetails) :
  well_typed (Request.query_dict q).
Proof. split; right; eexists; reflexivity. Qed.

Lemma query_dict_impact (q : Request.QueryDetails) :
  impact (Request.query_dict q) = (Request.runquantity q * Request.executiontime q)%Z.
Proof. reflexivity. Qed.

Lemma sort_initial_state (m : Request.DatabaseMetadata) :
  Pipeline.sort_queries_by_total_time (Request.initial_state (Request.to_agent_input m))
  = Some (Request.initial_state
            (Request.mkAgentInput {[ "url" := Request.url m ]}
               (map Request.statement (Request.ddl m))
               (sort_by impact (map Request.query_dict (Request.queries m))))).
Proof.
  unfold Pipeline.sort_queries_by_total_time. cbn [Request.initial_state Request.to_agent_input
    Request.in_queries Pipeline.queries].
  rewrite sorted_queries_well_typed.
  - reflexivity.
  - apply List.Forall_forall. intros x Hx. apply in_map_iff in Hx as [q [<- _]].
    apply query_dict_well_typed.
Qed.

(** For a request whose metrics are non-negative integers, the sort stage run on
    the initial state built from [to_agent_input] succeeds, keeps the url
    metadata and the DDL statements, and holds a permutation of the request's
    queries sorted by decreasing, non-negative impact. *)
Theorem request_sort_stage (m : Request.DatabaseMetadata) :
  Request.valid_metadata m ->
  exists st1,
    Pipeline.sort_queries_by_total_time (Request.initial_state (Request.to_agent_input m))
      = Some st1 /\
    Pipeline.metadata st1 = {[ "url" := Request.url m ]} /\
    Pipeline.ddl_statements st1 = map Request.statement (Request.ddl m) /\
    Permutation (map Request.query_dict (Request.queries m)) (Pipeline.queries st1) /\
    Sorted (fun a b => impact b <= impact a)%Z (Pipeline.queries st1) /\
    Forall (fun q => 0 <= impact q)%Z (Pipeline.queries st1).
Proof.
  intros Hv. eexists. split; [apply sort_initial_state|]. cbn.
  split; [done|]. split; [done|]. split; [apply sort_by_perm|].
  split; [apply sort_by_sorted|].
  apply (Permutation_Forall (sort_by_perm impact _)).
  apply Forall_map. eapply Forall_impl; [exact Hv|].
  intros q [Hr He]. rewrite query_dict_impact. lia.
Qed.

Lemma map_fst_zip {B C : Type} (ks : list B) (l : list C) :
  length ks = length l -> map fst (zip ks l) = ks.
Proof.
  revert l. induction ks as [|k ks IH]; intros [|x l] H; cbn in *; try done.
  f_equal. apply IH. lia.
Qed.

Lemma strongly_sorted_app {B : Type} (R : B -> B -> Prop) (l1 l2 : list B) :
  StronglySorted R (l1 ++ l2) -> forall a b, In a l1 -> In b l2 -> R a b.
Proof.
  induction l1 as [|x l1 IH]; intros H a b Ha Hb; [destruct Ha|].
  apply StronglySorted_inv in H as [H HF]. destruct Ha as [<-|Ha].
  - apply (proj1 (List.Forall_forall _ _) HF). apply in_or_app. by right.
  - by apply IH.
Qed.

(** After the sort stage, the analyst prompt enumerates at most ten queries,
    numbered from 0, and they are a prefix of the sorted list whose impact is
    at least that of every query left out. *)
Theorem analyst_gets_top_queries (m : Request.DatabaseMetadata) :
  exists st1,
    Pipeline.sort_queries_by_total_time (Request.initial_state (Request.to_agent_input m))
      = Some st1 /\
    length (Request.analyst_entries (Pipeline.queries st1))
      = Nat.min 10 (length (Request.queries m)) /\
    map fst (Request.analyst_entries (Pipeline.queries st1))
      = seq 0 (length (Request.analyst_entries (Pipeline.queries st1))) /\
    exists rest,
      Pipeline.queries st1 = map snd (Request.analyst_entries (Pipeline.queries st1)) ++ rest /\
      (forall a b, In a (map snd (Request.analyst_entries (Pipeline.queries st1))) ->
                   In b rest -> (impact b <= impact a)%Z).
Proof.
  eexists. split; [apply sort_initial_state|]. cbn [Request.initial_state Pipeline.queries
    Request.in_queries].
  set (l := sort_by impact (map Request.query_dict (Request.queries m))).
  assert (Hlen : length l = length (Request.queries m)).
  { unfold l. rewrite <- (Permutation_length (sort_by_perm impact _)). apply length_map. }
  assert (Hsnd : map snd (Request.analyst_entries l) = take 10 l).
  { unfold Request.analyst_entries. apply map_snd_zip. apply length_seq. }
  assert (Hfst : map fst (Request.analyst_entries l) = seq 0 (length (take 10 l))).
  { unfold Request.analyst_entries. apply map_fst_zip. apply length_seq. }
  assert (Hel : length (Request.analyst_entries l) = length (take 10 l)).
  { rewrite <- (length_map snd), Hsnd. done. }
  split; [rewrite Hel, length_take; lia|].
  split; [by rewrite Hfst, Hel|].
  exists (drop 10 l). rewrite Hsnd. split; [symmetry; apply take_drop|].
  apply strongly_sorted_app. rewrite take_drop.
  apply Sorted_StronglySorted; [intros x y z; lia|]. apply sort_by_sorted.
Qed.


Lemma analyze_schema_queries a (s s' : State) :
  analyze_schema a s = Some s' -> queries s' = queries s.
Proof. unfold analyze_schema. destruct (a _ _); cbn; [by intros [= <-]|discriminate]. Qed.

Lemma develop_ddl_queries d (s s' : State) :
  develop_ddl d s = Some s' -> queries s' = queries s.
Proof. unfold develop_ddl. destruct (d _ _); cbn; [by intros [= <-]|discriminate]. Qed.

Lemma generate_migrations_queries g (s s' : State) :
  generate_migrations g s = Some s' -> queries s' = queries s.
Proof. unfold generate_migrations. destruct (g _ _ _); cbn; [by intros [= <-]|discriminate]. Qed.

(** When the whole pipeline succeeds on a request, the optimized queries of the
    result carry the ids of a permutation of the request's queries sorted by
    decreasing impact. *)
Theorem run_lists_queries_by_impact aa dd mg oq (m : Request.DatabaseMetadata) (out : Output) :
  run aa dd mg oq (Request.initial_state (Request.to_agent_input m)) = Some out ->
  exists qs,
    Permutation (map Request.query_dict (Request.queries m)) qs /\
    Sorted (fun a b => impact b <= impact a)%Z qs /\
    map fst (res_queries out) = map queryid qs.
Proof.
  unfold run. rewrite sort_initial_state. cbn [mbind option_bind].
  set (st1 := Request.initial_state _).
  destruct (analyze_schema aa st1) as [st2|] eqn:E2; [|discriminate]. cbn.
  destruct (develop_ddl dd st2) as [st3|] eqn:E3; [|discriminate]. cbn.
  destruct (generate_migrations mg st3) as [st4|] eqn:E4; [|discriminate]. cbn.
  destruct (optimize_queries oq st4) as [st5|] eqn:E5; [|discriminate]. cbn.
  intros [= <-].
  exists (sort_by impact (map Request.query_dict (Request.queries m))).
  split; [apply sort_by_perm|]. split; [apply sort_by_sorted|].
  unfold optimize_queries in E5.
  destruct (map_option (process_query oq st4) (queries st4)) as [outs|] eqn:Eo;
    [|discriminate].
  cbn in E5. injection E5 as <-. cbn.
  rewrite (process_queries_ids _ _ _ _ Eo).
  rewrite (generate_migrations_queries _ _ _ E4), (develop_ddl_queries _ _ _ E3),
    (analyze_schema_queries _ _ _ E2).
  reflexivity.
Qed.

Lemma request_sort_stage_witness :
  Request.valid_metadata sample_request /\
  exists st1,
    Pipeline.sort_queries_by_total_time
      (Request.initial_state (Request.to_agent_input sample_request)) = Some st1 /\
    Pipeline.metadata st1 = {[ "url" := Request.url sample_request ]} /\
    Pipeline.ddl_statements st1 = map Request.statement (Request.ddl sample_request) /\
    Permutation (map Request.query_dict (Request.queries sample_request))
      (Pipeline.queries st1) /\
    Sorted (fun a b => impact b <= impact a)%Z (Pipeline.queries st1) /\
    Forall (fun q => 0 <= impact q)%Z (Pipeline.queries st1).
Proof.
  assert (Hv : Request.valid_metadata sample_request).
  { unfold Request.valid_metadata. cbn.
    repeat (apply List.Forall_cons; [split; cbn; lia|]). apply List.Forall_nil. }
  split; [exact Hv|]. exact (request_sort_stage sample_request Hv).
Defined.

Lemma run_lists_queries_by_impact_witness :
  exists out,
    run (fun _ _ => Some "index on t(b)") (fun _ ddl => Some ddl)
        (fun _ _ _ => Some ["CREATE INDEX ON t (b);"]) (fun q _ => Some q)
        (Request.initial_state (Request.to_agent_input sample_request)) = Some out /\
    exists qs,
      Permutation (map Request.query_dict (Request.queries sample_request)) qs /\
      Sorted (fun a b => impact b <= impact a)%Z qs /\
      map fst (res_queries out) = map queryid qs.
Proof.
  eexists. split.
  - vm_compute. reflexivity.
  - apply (run_lists_queries_by_impact (fun _ _ => Some "index on t(b)")
      (fun _ ddl => Some ddl) (fun _ _ _ => Some ["CREATE INDEX ON t (b);"])
      (fun q _ => Some q)).
    vm_compute. reflexivity.
Defined.

End RequestFacts.
